(** * DS Gutachten Formular: the submission pipeline of [server.js]

    A shallow embedding of the server's submission pipeline
    ([processGutachtenSubmission] and the functions it calls) and the
    properties of it that the specification states.

    Conventions of the embedding:
    - a JavaScript string is a [string] whose characters are code units
      below 256 (the Latin-1 range);
    - a field value is a scalar: a string, a number that is an integer, a
      boolean or [null]; [undefined] is an absent field ([None]); the number
      [JNum n] is the Number that the integer literal [n] is read as;
    - the own properties of an object are a [gmap string value]; where the
      program enumerates an object ([Object.keys]), the object is the list of
      its properties in enumeration order;
    - a function that can throw returns a [Result]; a function that talks to
      the file system, Google Drive or Notion runs in the monad [M] over a
      [World]. *)

From stdpp Require Import gmap strings list fin_maps pretty.
From Stdlib Require Import Ascii ZArith Lia.

Local Open Scope Z_scope.

(** ** Numbers *)

(** Numbers are doubles.  The integers among them are modelled by the integer
    they are read from: every integer of magnitude below 2^53 is a Number,
    a larger one stands for the nearest Number. *)
Module Num.

(** The Number value of the integer [m ≥ 0]: [m] rounded to 53 significant
    bits, ties to even; [None] is [Infinity]. *)
Definition to_double (m : Z) : option Z :=
  let shift := Z.log2 m - 52 in
  if shift <=? 0 then Some m
  else
    let q := Z.shiftr m shift in
    let r := Z.land m (Z.ones shift) in
    let half := Z.shiftl 1 (shift - 1) in
    let q := if (half <? r) || ((r =? half) && Z.odd q) then q + 1 else q in
    let d := Z.shiftl q shift in
    if 2 ^ 1024 <=? d then None else Some d.

(** The number of decimal digits of [x > 0]. *)
Definition decimal_length (x : Z) : Z :=
  Z.of_nat (String.length (pretty (Z.to_N x))).

(** The decimal [s * 10^(n - k)] with [k] digits that is nearest to the
    Number [x] among those whose Number value is [x], if there is one: [s]
    and [n]. *)
Definition nearest (x k : Z) : option (Z * Z) :=
  let n := decimal_length x in
  let p := 10 ^ (n - k) in
  let lo := x / p in
  let hi := lo + 1 in
  let reads s := bool_decide (to_double (s * p) = Some x) in
  let up := if hi <? 10 ^ k then (hi, n) else (10 ^ (k - 1), n + 1) in
  match reads lo, reads hi with
  | true, true =>
      let below := x - lo * p in
      let above := hi * p - x in
      if below <? above then Some (lo, n)
      else if above <? below then Some up
      else if Z.even lo then Some (lo, n) else Some up
  | true, false => Some (lo, n)
  | false, true => Some up
  | false, false => None
  end.

(** The shortest such decimal: the least [k], from [k] on, with at most
    [fuel] more digits tried. *)
Fixpoint shortest (fuel : nat) (x k : Z) : Z * Z * Z :=
  match fuel with
  | O => (x, k, decimal_length x)
  | S fuel =>
      match nearest x k with
      | Some (s, n) => (s, k, n)
      | None => shortest fuel x (k + 1)
      end
  end.

Definition zeros (n : Z) : string :=
  String.string_of_list_ascii (replicate (Z.to_nat n) "0"%char).

(** [Number::toString] for a positive integral Number. *)
Definition positive_to_string (x : Z) : string :=
  let '(s, k, n) := shortest 17 x 1 in
  let digits := pretty (Z.to_N s) in
  if n <=? 21 then digits +:+ zeros (n - k)
  else
    let e := "e+" +:+ pretty (Z.to_N (n - 1)) in
    match digits with
    | String d rest =>
        if String.eqb rest "" then String d e
        else String d ("." +:+ rest +:+ e)
    | EmptyString => e
    end.

(** [String(n)] for the Number that the integer [n] is read as. *)
Definition to_string (n : Z) : string :=
  if n =? 0 then "0"
  else
    let sign := if n <? 0 then "-" else "" in
    match to_double (Z.abs n) with
    | Some x => sign +:+ positive_to_string x
    | None => sign +:+ "Infinity"
    end.

End Num.

(** ** JavaScript values *)

Inductive value : Type :=
  | JStr (s : string)
  | JNum (n : Z)
  | JBool (b : bool)
  | JNull.

#[global] Instance value_eq_dec : EqDecision value.
Proof. solve_decision. Defined.

(** A property read [obj[k]]: [None] is [undefined]. *)
Abbreviation field := (option value).

(** [ToBoolean]. *)
Definition truthy (v : value) : bool :=
  match v with
  | JStr s => negb (String.eqb s "")
  | JNum n => negb (n =? 0)
  | JBool b => b
  | JNull => false
  end.

Definition truthy_field (f : field) : bool :=
  match f with
  | Some v => truthy v
  | None => false
  end.

(** [ToString], as used by template literals and by [.toString()]. *)
Definition to_string (v : value) : string :=
  match v with
  | JStr s => s
  | JNum n => Num.to_string n
  | JBool true => "true"
  | JBool false => "false"
  | JNull => "null"
  end.

Definition field_to_string (f : field) : string :=
  match f with
  | Some v => to_string v
  | None => "undefined"
  end.

(** [a || b] on fields. *)
Definition js_or (a b : field) : field :=
  if truthy_field a then a else b.

(** A thrown [Error], identified by its message. *)
Inductive Result (A : Type) : Type :=
  | Ok (a : A)
  | Throw (msg : string).
Arguments Ok {A} a.
Arguments Throw {A} msg.

(** The value of a result, or [d] if it is a throw. *)
Definition ok_or {A} (d : A) (r : Result A) : A :=
  match r with
  | Ok a => a
  | Throw _ => d
  end.

(** ** String primitives *)

Module Str.

Definition dot : ascii := "."%char.
Definition quote : ascii := "'"%char.
Definition backslash : ascii := "\"%char.
Definition slash : ascii := "/"%char.
Definition underscore : ascii := "_"%char.

(** [s.includes(c)] for a one-character needle. *)
Fixpoint includes (c : ascii) (s : string) : bool :=
  match s with
  | EmptyString => false
  | String a s' => Ascii.eqb a c || includes c s'
  end.

(** [s.split(c)] for a one-character separator: never the empty list. *)
Fixpoint split (c : ascii) (s : string) : list string :=
  match s with
  | EmptyString => [EmptyString]
  | String a s' =>
      if Ascii.eqb a c then EmptyString :: split c s'
      else match split c s' with
           | p :: ps => String a p :: ps
           | [] => [String a EmptyString]
           end
  end.

(** [s.replace(/c/g, d)]: every occurrence. *)
Fixpoint replace_all (c d : ascii) (s : string) : string :=
  match s with
  | EmptyString => EmptyString
  | String a s' =>
      String (if Ascii.eqb a c then d else a) (replace_all c d s')
  end.

(** White space of [String.prototype.trim] among the code units below 256:
    TAB, LF, VT, FF, CR, SPACE and NBSP. *)
Definition is_ws (a : ascii) : bool :=
  match a with
  | "009" | "010" | "011" | "012" | "013" | " " | "160" => true
  | _ => false
  end%char.

Fixpoint trim_start (s : string) : string :=
  match s with
  | EmptyString => EmptyString
  | String a s' => if is_ws a then trim_start s' else s
  end.

Fixpoint trim_end (s : string) : string :=
  match s with
  | EmptyString => EmptyString
  | String a s' =>
      match trim_end s' with
      | EmptyString => if is_ws a then EmptyString else String a EmptyString
      | t => String a t
      end
  end.

Definition trim (s : string) : string := trim_end (trim_start s).

Fixpoint drop (n : nat) (s : string) : string :=
  match n, s with
  | O, _ => s
  | S n', EmptyString => EmptyString
  | S n', String _ s' => drop n' s'
  end.

(** [s.slice(-n)]: the last [n] code units, or all of [s] when shorter. *)
Definition slice_last (n : nat) (s : string) : string :=
  drop (String.length s - n) s.

(** The text before the first [c], and the text after it (all of [s] and
    nothing when [s] has no [c]). *)
Fixpoint before_first (c : ascii) (s : string) : string :=
  match s with
  | EmptyString => EmptyString
  | String a s' => if Ascii.eqb a c then EmptyString
                   else String a (before_first c s')
  end.

Fixpoint after_first (c : ascii) (s : string) : string :=
  match s with
  | EmptyString => EmptyString
  | String a s' => if Ascii.eqb a c then s' else after_first c s'
  end.

(** The rest of [s] after the prefix [p], if [s] starts with [p]. *)
Fixpoint strip_prefix (p s : string) : option string :=
  match p, s with
  | EmptyString, _ => Some s
  | String a p', String b s' => if Ascii.eqb a b then strip_prefix p' s' else None
  | String _ _, EmptyString => None
  end.

End Str.

(** ** Paths: [path.join] on POSIX *)

Module Path.

(** [paths.join('/')] *)
Fixpoint join_segments (segments : list string) : string :=
  match segments with
  | [] => ""
  | [s] => s
  | s :: rest => s +:+ "/" +:+ join_segments rest
  end.

Definition starts_with_slash (path : string) : bool :=
  match path with
  | String a _ => Ascii.eqb a Str.slash
  | EmptyString => false
  end.

Fixpoint ends_with_slash (path : string) : bool :=
  match path with
  | EmptyString => false
  | String a EmptyString => Ascii.eqb a Str.slash
  | String _ rest => ends_with_slash rest
  end.

(** One segment of [normalizeString]: [res] holds the segments kept so far,
    the last one first. *)
Definition resolve (allowAboveRoot : bool) (res : list string)
    (segment : string) : list string :=
  if String.eqb segment "" || String.eqb segment "." then res
  else if String.eqb segment ".." then
    match res with
    | last :: rest =>
        if String.eqb last ".."
        then if allowAboveRoot then ".." :: res else res
        else rest
    | [] => if allowAboveRoot then [".."] else []
    end
  else segment :: res.

Definition normalizeString (path : string) (allowAboveRoot : bool) : string :=
  join_segments
    (reverse (foldl (resolve allowAboveRoot) [] (Str.split Str.slash path))).

(** [path.posix.normalize] *)
Definition normalize (path : string) : string :=
  if String.eqb path "" then "."
  else
    let isAbsolute := starts_with_slash path in
    let trailingSeparator := ends_with_slash path in
    let path := normalizeString path (negb isAbsolute) in
    if String.eqb path "" then
      if isAbsolute then "/" else if trailingSeparator then "./" else "."
    else
      let path := if trailingSeparator then path +:+ "/" else path in
      if isAbsolute then "/" +:+ path else path.

(** [path.posix.join] *)
Definition join (paths : list string) : string :=
  match filter (fun p => p ≠ "") paths with
  | [] => "."
  | parts => normalize (join_segments parts)
  end.

End Path.

(** ** The form record *)

(** Own properties of a parsed request body or of the normalized record. *)
Abbreviation record := (gmap string value).

(** A request body as [Object.keys] enumerates it. *)
Abbreviation raw_record := (list (string * value)).

(** ** normalizeFormData *)

(** Names that every object literal inherits from [Object.prototype] (Node):
    [fieldMapping[key]] finds them although [fieldMapping] does not declare
    them.  The result is the property key that the inherited member turns
    into when it is used as the key of [normalized[mappedKey]]: the source
    text of a native function, or ["[object Object]"] for the prototype
    object itself. *)
Definition native_function (name : string) : string :=
  "function " +:+ name +:+ "() { [native code] }".

Definition object_prototype_key (key : string) : option string :=
  if String.eqb key "constructor" then Some (native_function "Object")
  else if String.eqb key "__proto__" then Some "[object Object]"
  else if bool_decide (key ∈ ["__defineGetter__"; "__defineSetter__";
                              "hasOwnProperty"; "__lookupGetter__";
                              "__lookupSetter__"; "isPrototypeOf";
                              "propertyIsEnumerable"; "toString"; "valueOf";
                              "toLocaleString"])
  then Some (native_function key)
  else None.

(** [fieldMapping[key] || key] with [fieldMapping = { gutachtenNr:
    'gutachten_nr' }], as a property key. *)
Definition mappedKey (key : string) : string :=
  if String.eqb key "gutachtenNr" then "gutachten_nr"
  else match object_prototype_key key with
       | Some k => k
       | None => key
       end.

(** The key under which [normalizeFormData] stores the value of [key]. *)
Definition normalizedKey (key : string) : string :=
  if Str.includes Str.dot key then
    match Str.split Str.dot key with
    | [prefix; suffix] => prefix +:+ "_" +:+ suffix
    | _ => Str.replace_all Str.dot Str.underscore key
    end
  else mappedKey key.

(** The object [normalized] while it is filled: its own properties, and
    whether its prototype has been set to [null].  An assignment to the key
    [__proto__] reaches the accessor inherited from [Object.prototype], which
    changes the prototype for [null] and ignores other scalars; once the
    prototype is [null] the key is an ordinary one. *)
Record JsObject : Type := mkObj {
  proto_null : bool;
  own : gmap string value;
}.

Definition empty_object : JsObject := mkObj false ∅.

Definition set_property (o : JsObject) (k : string) (v : value) : JsObject :=
  if String.eqb k "__proto__" && negb (proto_null o) then
    match v with
    | JNull => mkObj true (own o)
    | _ => o
    end
  else mkObj (proto_null o) (<[k := v]> (own o)).

(** The [forEach] over [Object.keys(data)]. *)
Definition normalizeKeys (data : raw_record) : JsObject :=
  foldl (fun o kv => set_property o (normalizedKey kv.1) kv.2)
        empty_object data.

(** The synthesized order number
    [`DS-${new Date().getFullYear()}-${String(Date.now()).slice(-6)}`]. *)
Definition synthetic_nr (year now : N) : string :=
  "DS-" +:+ pretty year +:+ "-" +:+ Str.slice_last 6 (pretty now).

Definition normalizeFormData (year now : N) (data : raw_record) : record :=
  let normalized := own (normalizeKeys data) in
  if negb (truthy_field (normalized !! "gutachten_nr")) then
    <["gutachten_nr" := JStr (synthetic_nr year now)]> normalized
  else normalized.

(** ** validateFormData *)

Definition required : list string :=
  ["gutachten_nr"; "auftraggeber_name"; "auftraggeber_adresse";
   "auftraggeber_kontakt"; "auftraggeber_kennzeichen"; "unfall_tag";
   "unfall_ort"].

(** [!data[field] || data[field].toString().trim() === ''] *)
Definition field_missing (f : field) : bool :=
  match f with
  | None => true
  | Some v => negb (truthy v) || String.eqb (Str.trim (to_string v)) ""
  end.

Fixpoint check_required (data : record) (fields : list string) : Result unit :=
  match fields with
  | [] => Ok tt
  | f :: rest =>
      if field_missing (data !! f)
      then Throw ("Erforderliches Feld fehlt: " +:+ f)
      else check_required data rest
  end.

(** The e-mail test after the loop: its outcome is discarded (the branch is
    empty), but [.split] is only defined on strings, so a truthy contact that
    is not a string raises a [TypeError]. *)
Definition check_email (data : record) : Result unit :=
  match data !! "auftraggeber_kontakt" with
  | Some (JStr _) => Ok tt
  | Some v =>
      if truthy v
      then Throw "data.auftraggeber_kontakt.split is not a function"
      else Ok tt
  | None => Ok tt
  end.

Definition validateFormData (data : record) : Result unit :=
  match check_required data required with
  | Ok _ => check_email data
  | Throw m => Throw m
  end.

(** ** The client's combined contact string *)

(** [parts[i]] of a list of strings read as a field. *)
Definition part (parts : list string) (i : nat) : field :=
  JStr <$> parts !! i.

(** [generatePDFFile]: [kontakt.split('/').map(p => p.trim())], then
    [kontaktParts[0] || ''] and [kontaktParts[1] || '']. *)
Definition pdfKontakt (formData : record) : Result (string * string) :=
  match js_or (formData !! "auftraggeber_kontakt") (Some (JStr "")) with
  | Some (JStr kontakt) =>
      let kontaktParts := Str.trim <$> Str.split Str.slash kontakt in
      let email := field_to_string (js_or (part kontaktParts 0) (Some (JStr ""))) in
      let phone := field_to_string (js_or (part kontaktParts 1) (Some (JStr ""))) in
      Ok (email, phone)
  | _ => Throw "kontakt.split is not a function"
  end.

(** [buildKontakteProperties]: the split happens only for a truthy contact,
    and each part is trimmed only when it is truthy. *)
Definition notionKontakt (formData : record) : Result (string * string) :=
  let trimmed (f : field) : string :=
    match f with
    | Some (JStr p) => if truthy (JStr p) then Str.trim p else ""
    | _ => ""
    end in
  match formData !! "auftraggeber_kontakt" with
  | Some v =>
      if truthy v then
        match v with
        | JStr kontakt =>
            let kontaktParts := Str.split Str.slash kontakt in
            Ok (trimmed (part kontaktParts 0), trimmed (part kontaktParts 1))
        | _ => Throw "formData.auftraggeber_kontakt.split is not a function"
        end
      else Ok ("", "")
  | None => Ok ("", "")
  end.

(** ** The rendered document *)

(** The drawing calls made on the PDFKit document, in order.  [TextValue] is
    a [doc.text] whose argument is a field of the form rather than a string
    built by the server; [CessionMark] is the [doc.text] of the check-marked
    cession line, whose check mark lies outside the code units below 256. *)
Inductive DocOp : Type :=
  | FontSize (size : Z)
  | Font (name : string)
  | Text (s : string) (x y : Z)
  | TextValue (v : field) (x y : Z)
  | TextWrapped (v : field) (x y width : Z)
  | CessionMark (x y : Z)
  | AddPage
  | Image (data : string) (x y width height : Z).

Definition auml : string := String "228"%char "".
Definition uuml : string := String "252"%char "".
Definition Auml : string := String "196"%char "".
Definition Uuml : string := String "220"%char "".

(** What the renderer takes from its surroundings: today's date in the
    [de-DE] format, the height PDFKit computes for a wrapped text (in whole
    points), and whether PDFKit accepts the decoded signature image. *)
Record Layout : Type := mkLayout {
  today : string;
  heightOfString : field → Z;
  image_ok : string → bool;
}.

Definition letterhead : list DocOp :=
  [ FontSize 20; Font "Helvetica-Bold";
    Text ("DS SACHVERST" +:+ Auml +:+ "NDIGENB" +:+ Uuml +:+ "RO") 50 50;
    FontSize 12; Font "Helvetica";
    Text ("M" +:+ uuml +:+ "hlenstr. 49 - 33609 Bielefeld") 50 80;
    Text "Tel.: 0151-11738834" 50 95;
    Text "E-Mail: info@unfallschaden-bielefeld.de" 50 110;
    FontSize 16; Font "Helvetica-Bold";
    Text "Auftrag zur Gutachtenerstellung" 50 150 ].

(** Each section returns its drawing calls and the new [yPos]. *)
Definition orderSection (formData : record) (yPos : Z) : list DocOp * Z :=
  let ops := [ FontSize 12; Font "Helvetica-Bold";
               Text "Gutachten Nr.:" 50 yPos;
               Font "Helvetica";
               TextValue (formData !! "gutachten_nr") 150 yPos ] in
  let yPos := yPos + 20 in
  let (ops, yPos) :=
    if truthy_field (formData !! "abtretung")
    then (ops ++ [CessionMark 50 yPos], yPos + 20)
    else (ops, yPos) in
  (ops, yPos + 10).

Definition clientSection (formData : record) (email phone : string) (yPos : Z)
  : list DocOp * Z :=
  ([ FontSize 14; Font "Helvetica-Bold";
     Text ("Auftraggeber (Gesch" +:+ auml +:+ "digter)") 50 yPos;
     FontSize 12; Font "Helvetica";
     Text ("Name: " +:+ field_to_string (formData !! "auftraggeber_name"))
          50 (yPos + 25);
     Text ("Adresse: " +:+ field_to_string
             (js_or (formData !! "auftraggeber_adresse") (Some (JStr ""))))
          50 (yPos + 40);
     Text ("E-Mail: " +:+ email) 50 (yPos + 55);
     Text ("Telefon: " +:+ phone) 50 (yPos + 70);
     Text ("Kennzeichen: " +:+
             field_to_string (formData !! "auftraggeber_kennzeichen"))
          50 (yPos + 85) ],
   yPos + 110).

Definition optionalLine (label : string) (f : field) (acc : list DocOp * Z)
  : list DocOp * Z :=
  if truthy_field f
  then (acc.1 ++ [Text (label +:+ field_to_string f) 50 acc.2], acc.2 + 15)
  else acc.

Definition vehicleSection (formData : record) (yPos : Z) : list DocOp * Z :=
  let km := formData !! "kilometerstand" in
  let reifen := formData !! "reifen" in
  let fin := formData !! "fahrzeugstellnummer" in
  if truthy_field km || truthy_field reifen || truthy_field fin then
    let acc := ([ FontSize 14; Font "Helvetica-Bold";
                  Text "Fahrzeugdaten" 50 yPos;
                  FontSize 12; Font "Helvetica" ], yPos + 20) in
    let acc := optionalLine "Kilometerstand: " km acc in
    let acc := optionalLine "Reifen/Profiltiefe: " reifen acc in
    let acc := optionalLine "Fahrzeugstellnummer: " fin acc in
    (acc.1, acc.2 + 10)
  else ([], yPos).

Definition accidentSection (lay : Layout) (formData : record) (yPos : Z)
  : list DocOp * Z :=
  let acc := ([ FontSize 14; Font "Helvetica-Bold";
                Text "Unfalldaten" 50 yPos;
                FontSize 12; Font "Helvetica";
                Text ("Unfalltag: " +:+ field_to_string (formData !! "unfall_tag"))
                     50 (yPos + 20) ], yPos + 35) in
  let acc := optionalLine "Uhrzeit: " (formData !! "uhrzeit") acc in
  let acc := (acc.1 ++ [Text ("Unfallort: " +:+
                                field_to_string (formData !! "unfall_ort"))
                             50 acc.2], acc.2 + 15) in
  let text := formData !! "schadenbeschreibung" in
  if truthy_field text then
    (acc.1 ++ [ Text "Schadenbeschreibung:" 50 acc.2;
                TextWrapped text 50 (acc.2 + 15) 500 ],
     acc.2 + 15 + (heightOfString lay text + 15))
  else acc.

(** The signature image is drawn only when the field is a string other than
    ['data:,'] that PDFKit accepts; any failure in that block is caught. *)
Definition signatureImage (lay : Layout) (formData : record) (yPos : Z)
  : list DocOp :=
  match formData !! "unterschrift" with
  | Some (JStr u) =>
      if truthy (JStr u) && negb (String.eqb u "data:,") && image_ok lay u
      then [Image u 300 (yPos - 10) 200 60]
      else []
  | _ => []
  end.

Definition closingSection (lay : Layout) (formData : record) (yPos : Z)
  : list DocOp :=
  let (page, yPos) := if 700 <? yPos then ([AddPage], 50) else ([], yPos) in
  let yPos := yPos + 20 in
  let ort := formData !! "ort" in
  page ++
  [ FontSize 12; Font "Helvetica-Bold";
    Text "Ort/Datum und Unterschrift:" 50 yPos;
    Font "Helvetica";
    Text (if truthy_field ort
          then field_to_string ort +:+ ", " +:+ today lay
          else today lay) 50 (yPos + 20) ] ++
  signatureImage lay formData (yPos + 20).

(** The body of the [try] block of [generatePDFFile]. *)
Definition drawDocument (lay : Layout) (formData : record)
  : Result (list DocOp) :=
  let '(order, yPos) := orderSection formData 190 in
  match pdfKontakt formData with
  | Throw m => Throw m
  | Ok (email, phone) =>
      let '(client, yPos) := clientSection formData email phone yPos in
      let '(vehicle, yPos) := vehicleSection formData yPos in
      let '(accident, yPos) := accidentSection lay formData yPos in
      Ok (letterhead ++ order ++ client ++ vehicle ++ accident ++
          closingSection lay formData yPos)
  end.

(** ** The collaborators: file system, Google Drive, Notion *)

(** A Notion property value, as the object literals of the server build it. *)
Inductive Property : Type :=
  | PTitle (content : value)
  | PRichText (content : value)
  | PEmail (email : string)
  | PPhone (phone_number : option string)
  | PRelation (ids : list string)
  | PSelect (name : string)
  | PCheckbox (b : bool)
  | PUrl (url : string).

#[global] Instance Property_eq_dec : EqDecision Property.
Proof. solve_decision. Defined.

Abbreviation properties := (gmap string Property).

(** A request to a collaborator.  The Drive search carries its query [q] as
    the server builds it; [corpora] is the shared drive the search is scoped
    to, if the root lies in one. *)
Inductive Call : Type :=
  | WritePdf (filePath : string)
  | DriveGet (fileId : string)
  | DriveList (q : string) (corpora : option string)
  | DriveCreateFolder (name : field) (parent : string)
  | DriveCreateFile (name : string) (parent : string) (filePath : string)
  | DrivePermission (fileId : string)
  | NotionQuery (database_id : string) (kennzeichen : field)
  | NotionCreatePage (database_id : string) (props : properties).

Definition is_drive_call (c : Call) : bool :=
  match c with
  | DriveGet _ | DriveList _ _ | DriveCreateFolder _ _
  | DriveCreateFile _ _ _ | DrivePermission _ => true
  | _ => false
  end.

Definition is_notion_call (c : Call) : bool :=
  match c with
  | NotionQuery _ _ | NotionCreatePage _ _ => true
  | _ => false
  end.

Definition folder_mime : string := "application/vnd.google-apps.folder".
Definition pdf_mime : string := "application/pdf".

Record DriveFile : Type := mkDriveFile {
  df_id : string;
  df_name : string;
  df_parent : string;
  df_mime : string;
  df_driveId : option string;
  df_public : bool;
}.

Record NotionPage : Type := mkNotionPage {
  pg_id : string;
  pg_database : string;
  pg_props : properties;
}.

(** The state that a submission can change, and a log of the requests made.
    [tick] counts the requests and clock readings so far. *)
Record World : Type := mkWorld {
  tick : nat;
  calls : list Call;
  files : gmap string (list DocOp);
  drive_files : list DriveFile;
  notion_pages : list NotionPage;
}.

(** What a submission cannot control: which request fails (and with what
    message), what the clock shows at each reading, the directory of
    [server.js] ([__dirname], an absolute path), and what Drive answers to a
    search whose query is not a folder search (see [read_folder_query]). *)
Record Env : Type := mkEnv {
  fault : nat → Call → option string;
  year_at : nat → N;
  now_at : nat → N;
  iso_at : nat → string;
  layout : Layout;
  dirname : string;
  drive_search : string → list DriveFile → Result (list string);
}.

(** The server object and the part of [process.env] that the pipeline reads.
    [drive] and [notion] tell whether the client objects are non-null. *)
Record Server : Type := mkServer {
  drive : bool;
  notion : bool;
  GOOGLE_DRIVE_ROOT_FOLDER : option string;
  KONTAKTE_DATABASE_ID : option string;
  BUSINESS_RESOURCES_DATABASE_ID : option string;
}.

(** An environment variable is used when it is set and not empty. *)
Definition env_var (v : option string) : option string :=
  match v with
  | Some s => if String.eqb s "" then None else Some s
  | None => None
  end.

(** ** The monad of the pipeline: state and exceptions *)

Definition M (A : Type) : Type := World → Result A * World.

Definition ret {A} (a : A) : M A := fun w => (Ok a, w).
Definition throw {A} (msg : string) : M A := fun w => (Throw msg, w).

Definition bind {A B} (m : M A) (k : A → M B) : M B :=
  fun w => match m w with
           | (Ok a, w') => k a w'
           | (Throw e, w') => (Throw e, w')
           end.

(** [try { m } catch (error) { handler(error.message) }] *)
Definition try_catch {A} (m : M A) (handler : string → M A) : M A :=
  fun w => match m w with
           | (Ok a, w') => (Ok a, w')
           | (Throw e, w') => handler e w'
           end.

Definition lift {A} (r : Result A) : M A := fun w => (r, w).

Declare Scope pipeline_scope.
Delimit Scope pipeline_scope with pipeline.
Notation "'let!' x ':=' m 'in' k" := (bind m (fun x => k))
  (at level 10, x pattern, m at level 100, k at level 200) : pipeline_scope.
Local Open Scope pipeline_scope.

(** An identifier that no listed identifier equals: longer than all. *)
Definition fresh_id (used : list string) : string :=
  String.string_of_list_ascii
    (replicate (S (foldr max 0%nat (String.length <$> used))) "x"%char).

Definition drive_ids (w : World) : list string := df_id <$> drive_files w.
Definition notion_ids (w : World) : list string := pg_id <$> notion_pages w.

(** The folders of a name directly under a parent, and all folders, by
    identifier, in the order of the store. *)
Definition is_folder_named (name parent : string) (f : DriveFile) : Prop :=
  df_name f = name ∧ df_mime f = folder_mime ∧ df_parent f = parent.

#[global] Instance is_folder_named_dec name parent f :
  Decision (is_folder_named name parent f).
Proof. unfold is_folder_named. apply _. Defined.

Definition folder_ids (name parent : string) (l : list DriveFile)
    : list string :=
  df_id <$> filter (is_folder_named name parent) l.

Definition all_folders (l : list DriveFile) : list string :=
  df_id <$> filter (fun f => df_mime f = folder_mime) l.

(** The query of [uploadToGoogleDrive]: the folder name and the identifier of
    the root are pasted between the quotes as they are. *)
Definition folder_query (folderName rootFolderId : string) : string :=
  "name='" +:+ folderName
  +:+ "' and mimeType='application/vnd.google-apps.folder' and '"
  +:+ rootFolderId +:+ "' in parents".

(** How Drive reads a string literal of a query from behind its opening
    quote: up to the closing quote, with [\'] standing for a quote and [\\]
    for a backslash.  The text of the literal and the rest of the query; no
    other use of the backslash is a literal here. *)
Fixpoint read_literal (s : string) : option (string * string) :=
  match s with
  | EmptyString => None
  | String a rest =>
      if Ascii.eqb a Str.quote then Some (EmptyString, rest)
      else if Ascii.eqb a Str.backslash then
        match rest with
        | String b rest' =>
            if Ascii.eqb b Str.quote || Ascii.eqb b Str.backslash then
              match read_literal rest' with
              | Some (literal, r) => Some (String b literal, r)
              | None => None
              end
            else None
        | EmptyString => None
        end
      else
        match read_literal rest with
        | Some (literal, r) => Some (String a literal, r)
        | None => None
        end
  end.

(** A query that Drive reads as the search for the folders of a name
    directly under a parent: the name and the parent. *)
Definition read_folder_query (q : string) : option (string * string) :=
  rest ← Str.strip_prefix "name='" q;
  '(name, rest) ← read_literal rest;
  rest ← Str.strip_prefix
            " and mimeType='application/vnd.google-apps.folder' and '" rest;
  '(parent, rest) ← read_literal rest;
  if String.eqb rest " in parents" then Some (name, parent) else None.

(** Make the file of an identifier readable by anyone. *)
Definition published (fileId : string) (f : DriveFile) : DriveFile :=
  if bool_decide (df_id f = fileId)
  then mkDriveFile (df_id f) (df_name f) (df_parent f) (df_mime f)
                   (df_driveId f) true
  else f.

Definition publish (fileId : string) (l : list DriveFile) : list DriveFile :=
  published fileId <$> l.

(** The pages of a database whose [Kennzeichen] text equals the argument,
    by identifier, in the order of the store. *)
Definition matches_kennzeichen (database_id : string) (kennzeichen : field)
    (p : NotionPage) : Prop :=
  pg_database p = database_id
  ∧ ∃ v, kennzeichen = Some v
         ∧ pg_props p !! "Kennzeichen" = Some (PRichText v).

#[global] Instance matches_kennzeichen_dec db k p :
  Decision (matches_kennzeichen db k p).
Proof.
  unfold matches_kennzeichen.
  destruct k as [v|].
  - destruct (decide (pg_database p = db)); [|right; tauto].
    destruct (decide (pg_props p !! "Kennzeichen" = Some (PRichText v)));
      [left; eauto | right].
    intros [_ (v' & Hv & Hp)]. congruence.
  - right. intros [_ (v' & Hv & _)]. discriminate.
Defined.

Definition contacts (database_id : string) (kennzeichen : field)
    (pages : list NotionPage) : list string :=
  pg_id <$> filter (matches_kennzeichen database_id kennzeichen) pages.

(** The world after a request has been logged, and after the clock has been
    read. *)
Definition logged (c : Call) (w : World) : World :=
  mkWorld (S (tick w)) (calls w ++ [c]) (files w) (drive_files w)
          (notion_pages w).

Definition ticked (w : World) : World :=
  mkWorld (S (tick w)) (calls w) (files w) (drive_files w) (notion_pages w).

Section Collaborators.

Context (env : Env).

(** A request: logged, counted, and failed if the environment says so;
    otherwise the collaborator's own behaviour [serve] decides. *)
Definition request {A} (c : Call) (serve : M A) : M A :=
  fun w =>
    match fault env (tick w) c with
    | Some e => (Throw e, logged c w)
    | None => serve (logged c w)
    end.

(** A clock reading. *)
Definition read_clock {A} (f : Env → nat → A) : M A :=
  fun w => (Ok (f env (tick w)), ticked w).

(** *** File system: the write stream closes and the file is there. *)
Definition fs_write (filePath : string) (doc : list DocOp) : M unit :=
  request (WritePdf filePath) (fun w =>
    (Ok tt, mkWorld (tick w) (calls w) (<[filePath := doc]> (files w))
                    (drive_files w) (notion_pages w))).

(** *** Google Drive *)

(** [files.get]: the [driveId] of the file. *)
Definition drive_get (fileId : string) : M (option string) :=
  request (DriveGet fileId) (fun w =>
    match list_find (fun f => df_id f = fileId) (drive_files w) with
    | Some (_, f) => (Ok (df_driveId f), w)
    | None => (Throw ("File not found: " +:+ fileId +:+ "."), w)
    end).

(** [files.list]: for a query that reads as a folder search, the
    identifiers of the folders of that name directly under that parent. *)
Definition drive_list (q : string) (corpora : option string)
    : M (list string) :=
  request (DriveList q corpora) (fun w =>
    match read_folder_query q with
    | Some (name, parent) => (Ok (folder_ids name parent (drive_files w)), w)
    | None => (drive_search env q (drive_files w), w)
    end).

Definition drive_add (f : DriveFile) (w : World) : World :=
  mkWorld (tick w) (calls w) (files w) (drive_files w ++ [f])
          (notion_pages w).

(** [files.create] of a folder: the new identifier.  Drive names are
    strings. *)
Definition drive_create_folder (name : field) (parent : string) : M string :=
  request (DriveCreateFolder name parent) (fun w =>
    match name with
    | Some (JStr n) =>
        let id := fresh_id (drive_ids w) in
        (Ok id, drive_add (mkDriveFile id n parent folder_mime None false) w)
    | _ => (Throw "Invalid value at 'name'", w)
    end).

(** [files.create] with the PDF streamed from [filePath]. *)
Definition drive_create_file (name parent filePath : string) : M string :=
  request (DriveCreateFile name parent filePath) (fun w =>
    match files w !! filePath with
    | Some _ =>
        let id := fresh_id (drive_ids w) in
        (Ok id, drive_add (mkDriveFile id name parent pdf_mime None false) w)
    | None => (Throw ("ENOENT: no such file or directory, open '"
                      +:+ filePath +:+ "'"), w)
    end).

(** [permissions.create] with [role: 'reader', type: 'anyone']. *)
Definition drive_share (fileId : string) : M unit :=
  request (DrivePermission fileId) (fun w =>
    (Ok tt,
     mkWorld (tick w) (calls w) (files w) (publish fileId (drive_files w))
             (notion_pages w))).

(** *** Notion *)

(** [databases.query] with the [Kennzeichen] filter: the matching page
    identifiers. *)
Definition notion_query (database_id : string) (kennzeichen : field)
    : M (list string) :=
  request (NotionQuery database_id kennzeichen) (fun w =>
    (Ok (contacts database_id kennzeichen (notion_pages w)), w)).

(** [pages.create]: the identifier of the new page. *)
Definition notion_create (database_id : string) (props : properties)
    : M string :=
  request (NotionCreatePage database_id props) (fun w =>
    let id := fresh_id (notion_ids w) in
    (Ok id,
     mkWorld (tick w) (calls w) (files w) (drive_files w)
             (notion_pages w ++ [mkNotionPage id database_id props]))).

End Collaborators.

(** ** The stages of the pipeline *)

Inductive Action : Type := created | found_existing.

(** An entry of the Notion result: [{ id, action }] or [{ error }]. *)
Inductive Entry : Type :=
  | EntryRef (id : string) (action : Action)
  | EntryError (error : string).

(** [entry?.id] *)
Definition entry_id (e : option Entry) : option string :=
  match e with
  | Some (EntryRef id _) => Some id
  | _ => None
  end.

Record NotionResult : Type := mkNotionResult {
  customer : option Entry;
  businessResource : option Entry;
}.

Record DriveResult : Type := mkDriveResult {
  fileId : string;
  fileName : string;
  folderName : field;
  folderId : string;
  fileLink : string;
}.

(** The outcome of a stage in the result of a submission: a payload,
    [{ error }] or [{ skipped }]. *)
Inductive Stage (A : Type) : Type :=
  | Succeeded (payload : A)
  | Failed (error : string)
  | Skipped (reason : string).
Arguments Succeeded {A} payload.
Arguments Failed {A} error.
Arguments Skipped {A} reason.

Record PipelineResult : Type := mkResult {
  timestamp : string;
  gutachten_nr : field;
  pdf : string;
  googleDrive : Stage DriveResult;
  notionStage : Stage NotionResult;
}.

Definition bereich_id : string := "25b5e4b8-4c44-81b6-b25d-f0cf2e1ec15d".

Definition or_empty (f : field) : value :=
  match js_or f (Some (JStr "")) with
  | Some v => v
  | None => JStr ""
  end.

Definition buildKontakteProperties (formData : record) : Result properties :=
  match notionKontakt formData with
  | Throw m => Throw m
  | Ok (email, phone) =>
      Ok (<["Name" := PTitle (or_empty (formData !! "auftraggeber_name"))]> $
          <["Kennzeichen" :=
              PRichText (or_empty (formData !! "auftraggeber_kennzeichen"))]> $
          <["Email" := PEmail email]> $
          <["Phone" := PPhone (if String.eqb phone "" then None
                               else Some phone)]> $
          <["Address" :=
              PRichText (or_empty (formData !! "auftraggeber_adresse"))]> $
          <["Bereich " := PRelation [bereich_id]]> $
          <["Priority" := PSelect "Medium"]> $
          <["Archive" := PCheckbox false]> ∅)
  end.

(** A string argument that may be [null]/[undefined] used as a condition. *)
Definition nonempty (s : option string) : option string :=
  match s with
  | Some x => if String.eqb x "" then None else Some x
  | None => None
  end.

Definition buildGutachtenResourceProperties (formData : record)
    (googleDriveFileLink customerId : option string) : properties :=
  let props : properties :=
    <["Name" := PTitle (JStr (
        "Gutachten " +:+ field_to_string (formData !! "auftraggeber_kennzeichen")
        +:+ " - " +:+ field_to_string (formData !! "auftraggeber_name")
        +:+ " (" +:+ field_to_string (formData !! "gutachten_nr") +:+ ")"))]> $
    <["Type" := PSelect "Auftrag Gutachten"]> $
    <["Archive" := PCheckbox false]> $
    <["Favourite" := PCheckbox false]> ∅ in
  let props :=
    match nonempty googleDriveFileLink with
    | Some link => <["Link" := PUrl link]> props
    | None => props
    end in
  match nonempty customerId with
  | Some id => <["Kontakte" := PRelation [id]]> props
  | None => props
  end.

Section Pipeline.

Context (env : Env) (srv : Server).

(** [generatePDFFile]: the promise resolves with the path once the stream
    has closed, and rejects when drawing throws or the stream fails.  That
    the directory [temp] is there or can be made is taken for granted. *)
Definition generatePDFFile (formData : record) : M string :=
  let tempDir := Path.join [dirname env; "temp"] in
  let! now := read_clock env now_at in
  let fileName := "Gutachten_" +:+ field_to_string (formData !! "gutachten_nr")
                  +:+ "_" +:+ pretty now +:+ ".pdf" in
  let filePath := Path.join [tempDir; fileName] in
  let! doc := lift (drawDocument (layout env) formData) in
  let! _ := fs_write env filePath doc in
  ret filePath.

Definition uploadToGoogleDrive (formData : record) (pdfFilePath : string)
    : M DriveResult :=
  let folderName := js_or (formData !! "auftraggeber_kennzeichen")
                          (formData !! "kennzeichen") in
  let fileName := "Gutachten_" +:+ field_to_string (formData !! "gutachten_nr")
                  +:+ ".pdf" in
  try_catch
    (match env_var (GOOGLE_DRIVE_ROOT_FOLDER srv) with
     | None => throw "GOOGLE_DRIVE_ROOT_FOLDER not configured"
     | Some rootFolderId =>
         let! driveId := drive_get env rootFolderId in
         let! existingFolders :=
           drive_list env
             (folder_query (field_to_string folderName) rootFolderId)
             (nonempty driveId) in
         let! customerFolderId :=
           match existingFolders with
           | id :: _ => ret id
           | [] => drive_create_folder env folderName rootFolderId
           end in
         let! fileId := drive_create_file env fileName customerFolderId
                                          pdfFilePath in
         let! _ := drive_share env fileId in
         let fileLink := "https://drive.google.com/file/d/" +:+ fileId
                         +:+ "/view" in
         ret (mkDriveResult fileId fileName folderName customerFolderId
                            fileLink)
     end)
    (fun message => throw ("Google Drive Upload fehlgeschlagen: " +:+ message)).

Definition findCustomerByKennzeichen (databaseId : string)
    (kennzeichen : field) : M (option string) :=
  try_catch
    (let! results := notion_query env databaseId kennzeichen in
     ret (head results))
    (fun _ => ret None).

(** Step 1 of [processNotionIntegration]: the customer entry. *)
Definition customerStep (formData : record) : M (option Entry) :=
  match env_var (KONTAKTE_DATABASE_ID srv) with
  | Some kontakteId =>
      try_catch
        (let! existingCustomer :=
           findCustomerByKennzeichen kontakteId
             (formData !! "auftraggeber_kennzeichen") in
         match existingCustomer with
         | Some id => ret (Some (EntryRef id found_existing))
         | None =>
             let! props := lift (buildKontakteProperties formData) in
             let! id := notion_create env kontakteId props in
             ret (Some (EntryRef id created))
         end)
        (fun message => ret (Some (EntryError message)))
  | None => ret None
  end.

(** Step 2 of [processNotionIntegration]: the order entry. *)
Definition resourceStep (formData : record)
    (googleDriveFileLink : option string) (customer : option Entry)
    : M (option Entry) :=
  match env_var (BUSINESS_RESOURCES_DATABASE_ID srv) with
  | Some businessResourcesId =>
      try_catch
        (let! id := notion_create env businessResourcesId
                      (buildGutachtenResourceProperties formData
                         googleDriveFileLink (entry_id customer)) in
         ret (Some (EntryRef id created)))
        (fun message => ret (Some (EntryError message)))
  | None => ret None
  end.

Definition processNotionIntegration (formData : record)
    (googleDriveFileLink : option string) : M NotionResult :=
  try_catch
    (let! customer := customerStep formData in
     let! businessResource :=
       resourceStep formData googleDriveFileLink customer in
     ret (mkNotionResult customer businessResource))
    (fun message => throw ("Notion-Integration fehlgeschlagen: " +:+ message)).

(** [normalizeFormData] with the clock read where the source reads it. *)
Definition normalizeStep (data : raw_record) : M record :=
  let normalized := own (normalizeKeys data) in
  if negb (truthy_field (normalized !! "gutachten_nr")) then
    let! year := read_clock env year_at in
    let! now := read_clock env now_at in
    ret (<["gutachten_nr" := JStr (synthetic_nr year now)]> normalized)
  else ret normalized.

(** Stage 2 of the pipeline. *)
Definition uploadStage (formData : record) (pdfFilePath : string)
    : M (Stage DriveResult * option string) :=
  if drive srv && negb (String.eqb pdfFilePath "") then
    try_catch
      (let! driveResult := uploadToGoogleDrive formData pdfFilePath in
       ret (Succeeded driveResult, Some (fileLink driveResult)))
      (fun message => ret (Failed message, None))
  else ret (Skipped "Google Drive client not initialized or PDF failed", None).

(** Stage 3 of the pipeline. *)
Definition notionStep (formData : record)
    (googleDriveFileLink : option string) : M (Stage NotionResult) :=
  if notion srv then
    try_catch
      (let! notionResult :=
         processNotionIntegration formData googleDriveFileLink in
       ret (Succeeded notionResult))
      (fun message => ret (Failed message))
  else ret (Skipped "Notion client not initialized").

Definition processGutachtenSubmission (formData : raw_record)
    : M PipelineResult :=
  let! formData := normalizeStep formData in
  let! _ := lift (validateFormData formData) in
  let! timestamp := read_clock env iso_at in
  let! pdfFilePath :=
    try_catch (generatePDFFile formData)
              (fun _ => throw "PDF-Generierung fehlgeschlagen") in
  let! (googleDrive, googleDriveFileLink) :=
    uploadStage formData pdfFilePath in
  let! notionResult := notionStep formData googleDriveFileLink in
  ret (mkResult timestamp (formData !! "gutachten_nr") pdfFilePath
                googleDrive notionResult).

End Pipeline.

(** ** The route [POST /api/submit-gutachten] *)

Module Route.

(** The response: its status and the body [{ success, message, data }]. *)
Record Response : Type := mkResponse {
  status : nat;
  success : bool;
  message : string;
  data : option PipelineResult;
}.

(** [error.message || 'Ein Fehler ist aufgetreten'] *)
Definition error_message (m : string) : string :=
  if String.eqb m "" then "Ein Fehler ist aufgetreten" else m.

(** The handler, as it runs once the rate limiter has let the request
    through. *)
Definition submit (env : Env) (srv : Server) (body : raw_record) (w : World)
    : Response * World :=
  match processGutachtenSubmission env srv body w with
  | (Ok result, w') =>
      (mkResponse 200 true ("Gutachten erfolgreich " +:+ uuml +:+ "bermittelt")
                  (Some result), w')
  | (Throw m, w') => (mkResponse 500 false (error_message m) None, w')
  end.

End Route.

(** ** Notions used in the statements *)

(** One round of the [forEach] of [normalizeFormData]. *)
Definition assign (o : JsObject) (kv : string * value) : JsObject :=
  set_property o (normalizedKey kv.1) kv.2.

(** The number a string of decimal digits denotes. *)
Definition digit_value (a : ascii) : N :=
  match Ascii.is_nat a with
  | Some d => N.of_nat d
  | None => 0
  end.

Fixpoint decimal_value_from (acc : N) (s : string) : N :=
  match s with
  | EmptyString => acc
  | String a s' => decimal_value_from (10 * acc + digit_value a) s'
  end.

Definition decimal_value (s : string) : N := decimal_value_from 0 s.

(** The digits that [pretty] writes for a positive number, most significant
    first; nothing for zero. *)
Definition digits (n : N) : string := pretty_N_go n "".

(** The e-mail and the phone number that the contact string [s] stands for:
    the trimmed text before the first slash, and the trimmed text between the
    first slash and the second (up to the end if there is no second). *)
Definition kontakt_email (s : string) : string :=
  Str.trim (Str.before_first Str.slash s).

Definition kontakt_phone (s : string) : string :=
  Str.trim (Str.before_first Str.slash (Str.after_first Str.slash s)).

(** What the specification calls a missing field: absent, or empty once the
    white space is trimmed. *)
Definition absent_or_blank (f : field) : bool :=
  match f with
  | None => true
  | Some (JStr s) => String.eqb (Str.trim s) ""
  | Some _ => false
  end.

(** The customer key of a form: the name of the customer's folder. *)
Definition customer_key (formData : record) : field :=
  js_or (formData !! "auftraggeber_kennzeichen") (formData !! "kennzeichen").

(** The Drive file that an upload reports. *)
Definition pdf_file (res : DriveResult) : DriveFile :=
  mkDriveFile (fileId res) (fileName res) (folderId res) pdf_mime None false.

(** Normalization, validation and the time stamp: all that happens before
    the first stage. *)
Definition prepare (env : Env) (data : raw_record) : M (record * string) :=
  let! formData := normalizeStep env data in
  let! _ := lift (validateFormData formData) in
  let! timestamp := read_clock env iso_at in
  ret (formData, timestamp).

(** The record that [normalizeStep] makes of a request body in a world. *)
Definition normalized_in (env : Env) (w : World) (data : raw_record) : record :=
  normalizeFormData (year_at env (tick w)) (now_at env (S (tick w))) data.

(** The upload stage ends in [w3] without a link: the Drive client is
    missing and the stage is skipped, or the upload throws. *)
Definition degraded_upload (env : Env) (srv : Server) (formData : record)
    (p : string) (w2 : World) (outcome : Stage DriveResult) (w3 : World)
    : Prop :=
  (drive srv = false
   ∧ outcome = Skipped "Google Drive client not initialized or PDF failed"
   ∧ w3 = w2)
  ∨ (drive srv = true
     ∧ ∃ e, uploadToGoogleDrive env srv formData p w2 = (Throw e, w3)
            ∧ outcome = Failed e).

(** The surroundings [env], except that the request numbered [n] is
    answered. *)
Definition answering_at (n : nat) (env : Env) : Env :=
  mkEnv (fun m c => if decide (m = n) then None else fault env m c)
        (year_at env) (now_at env) (iso_at env) (layout env) (dirname env)
        (drive_search env).

(** [changes P Q kf kd w w']: from [w] to [w'] only requests satisfying [P]
    were made and only Notion pages satisfying [Q] were added; the temporary
    files are the same if [kf], the Drive files are the same if [kd]. *)
Record changes (P : Call → Prop) (Q : NotionPage → Prop) (kf kd : bool)
    (w w' : World) : Prop := mkChanges {
  ch_calls : ∃ l, calls w' = calls w ++ l ∧ Forall P l;
  ch_pages : ∃ l, notion_pages w' = notion_pages w ++ l ∧ Forall Q l;
  ch_files : kf = true → files w' = files w;
  ch_drive : kd = true → drive_files w' = drive_files w;
}.

Definition nothing {A} : A → Prop := fun _ => False.

(** A computation keeps a relation between the world it starts in and the
    world it ends in, whether it returns or throws. *)
Definition preserves {A} (R : relation World) (m : M A) : Prop :=
  ∀ w, R w (m w).2.

Definition is_write_call (c : Call) : Prop := ∃ p, c = WritePdf p.
Definition drive_call (c : Call) : Prop := is_drive_call c = true.

(** Properties without a [Link], and the requests to Notion whose new page,
    if any, has properties satisfying [P]. *)
Definition no_link (props : properties) : Prop := props !! "Link" = None.

Definition notion_call_where (P : properties → Prop) (c : Call) : Prop :=
  match c with
  | NotionQuery _ _ => True
  | NotionCreatePage _ props => P props
  | _ => False
  end.

(** The directory of a server that is not installed in the root directory,
    as [__dirname] names it: an absolute path in normal form, with no slash
    at its end. *)
Definition proper_directory (d : string) : Prop :=
  Path.starts_with_slash d = true
  ∧ Path.ends_with_slash d = false
  ∧ Path.normalize d = d.

(** A segment that [path.join] keeps as it is. *)
Definition plain_segment (s : string) : Prop :=
  Str.includes Str.slash s = false ∧ s ≠ "" ∧ s ≠ "." ∧ s ≠ "..".



(** The drawing calls other than the signature image. *)
Definition is_image (op : DocOp) : bool :=
  match op with
  | Image _ _ _ _ _ => true
  | _ => false
  end.

Definition without_images (ops : list DocOp) : list DocOp :=
  filter (fun op => is_image op = false) ops.

(** The path under which [generatePDFFile] writes the document of a record
    when the clock shows [now]. *)
Definition pdf_path_of (env : Env) (formData : record) (now : N) : string :=
  Path.join [Path.join [dirname env; "temp"];
             "Gutachten_" +:+ field_to_string (formData !! "gutachten_nr")
             +:+ "_" +:+ pretty now +:+ ".pdf"].

(** A text that stands between the quotes of a query as it is: it has
    neither a quote nor a backslash. *)
Definition plain (s : string) : bool :=
  negb (Str.includes Str.quote s) && negb (Str.includes Str.backslash s).

(** Drive answers every request. *)
Definition drive_answers (env : Env) : Prop :=
  ∀ n c, is_drive_call c = true → fault env n c = None.

(** Run an upload whose outcome is known, case by case; the root folder and
    the reading of the query are taken from the context when they are known
    there. *)
Ltac run_upload H :=
  unfold customer_key in *;
  unfold uploadToGoogleDrive in H;
  repeat match goal with
         | Hroot : env_var (GOOGLE_DRIVE_ROOT_FOLDER _) = Some _ |- _ =>
             rewrite Hroot in H
         end;
  cbv beta iota in H;
  unfold try_catch, bind, drive_get, drive_list, drive_create_folder,
    drive_create_file, drive_share, request, ret, throw in H;
  repeat match goal with
         | Hq : read_folder_query _ = Some _ |- _ => rewrite Hq in H
         end;
  repeat (case_match; simplify_eq/=);
  unfold pdf_file, drive_ids, drive_add, logged in *;
  simpl in *.

(** Close a goal [l = r] between closed terms by evaluation. *)
Ltac by_evaluation := vm_compute; reflexivity.

(** An example: the submission of the specification's end-to-end example, a
    server with both clients configured, a Drive that holds the root folder
    and an empty Notion. *)
Module Example.

Definition lay : Layout := mkLayout "01.01.2025" (fun _ => 30) (fun _ => true).

Definition env : Env :=
  mkEnv (fun _ _ => None) (fun _ => 2025%N)
        (fun n => (1730000123456 + N.of_nat n)%N)
        (fun _ => "2025-01-01T00:00:00.000Z") lay "/app"
        (fun _ _ => Throw "Invalid Value").

(** The same surroundings, except that writing a file fails. *)
Definition env_disk_full : Env :=
  mkEnv (fun _ c => match c with
                    | WritePdf _ => Some "ENOSPC: no space left on device"
                    | _ => None
                    end)
        (year_at env) (now_at env) (iso_at env) lay (dirname env)
        (drive_search env).

(** The same surroundings, except that Drive refuses every request. *)
Definition env_drive_down : Env :=
  mkEnv (fun _ c => if is_drive_call c then Some "ECONNREFUSED" else None)
        (year_at env) (now_at env) (iso_at env) lay (dirname env)
        (drive_search env).

(** The same surroundings, except that Notion refuses every query. *)
Definition env_query_down : Env :=
  mkEnv (fun _ c => match c with
                    | NotionQuery _ _ => Some "ECONNREFUSED"
                    | _ => None
                    end)
        (year_at env) (now_at env) (iso_at env) lay (dirname env)
        (drive_search env).

Definition srv : Server :=
  mkServer true true (Some "root") (Some "kontakte") (Some "resources").

Definition world : World :=
  mkWorld 0 [] ∅ [mkDriveFile "root" "Gutachten" "" folder_mime None false] [].

Definition body : raw_record :=
  [ ("auftraggeber.name", JStr "Max Mustermann");
    ("auftraggeber.kennzeichen", JStr "BI-XX 123");
    ("auftraggeber.adresse", JStr "Teststr 1");
    ("auftraggeber.kontakt", JStr "max@test.de / 0151123456");
    ("unfall_tag", JStr "2025-01-01");
    ("unfall_ort", JStr "Bielefeld") ].

(** The normalized record of [body] with the order number [nr]. *)
Definition formData (nr : string) : record :=
  <["gutachten_nr" := JStr nr]> (own (normalizeKeys body)).

(** A world in which the document of that record has been rendered. *)
Definition pdf_path : string :=
  "/app/temp/Gutachten_DS-2025-000001_1730000123456.pdf".

Definition world_rendered : World :=
  mkWorld 0 [] {[pdf_path := []]}
          [mkDriveFile "root" "Gutachten" "" folder_mime None false] [].

Definition no_upload : DriveResult := mkDriveResult "" "" None "" "".
Definition no_entries : NotionResult := mkNotionResult None None.

End Example.

(** * Properties *)

(** ** Strings *)

Lemma app_cons a s t : String a s +:+ t = String a (s +:+ t).
Proof. reflexivity. Qed.

Lemma app_nil_l s : "" +:+ s = s.
Proof. reflexivity. Qed.

Lemma split_nonempty c s : Str.split c s ≠ [].
Proof. destruct s as [|a s]; simpl; [done|]. by repeat case_match. Qed.

(** A string without the separator is a single part. *)
Lemma split_no_sep c s : Str.includes c s = false → Str.split c s = [s].
Proof.
  induction s as [|a s IH]; simpl; [done|].
  intros [Ha Hs]%orb_false_iff. rewrite Ha, (IH Hs). done.
Qed.

(** [split] cuts at the first separator and goes on in the rest. *)
Lemma split_first c s :
  Str.split c s =
    Str.before_first c s ::
    (if Str.includes c s then Str.split c (Str.after_first c s) else []).
Proof.
  induction s as [|a s IH]; simpl; [done|].
  destruct (Ascii.eqb a c); simpl; [done|].
  rewrite IH. done.
Qed.

Lemma includes_app c s t :
  Str.includes c (s +:+ t) = Str.includes c s || Str.includes c t.
Proof.
  induction s as [|a s IH]; simpl; [done|]. by rewrite IH, orb_assoc.
Qed.

Lemma replace_all_app c d s t :
  Str.replace_all c d (s +:+ t) =
  Str.replace_all c d s +:+ Str.replace_all c d t.
Proof. induction s as [|a s IH]; simpl; [done|]. by rewrite IH. Qed.

Lemma replace_all_id c d s :
  Str.includes c s = false → Str.replace_all c d s = s.
Proof.
  induction s as [|a s IH]; simpl; [done|].
  intros [Ha Hs]%orb_false_iff. by rewrite Ha, (IH Hs).
Qed.

Lemma split_app_sep c s t :
  Str.includes c s = false →
  Str.split c (s +:+ String c t) = s :: Str.split c t.
Proof.
  induction s as [|a s IH]; simpl.
  - intros _. by rewrite Ascii.eqb_refl.
  - intros [Ha Hs]%orb_false_iff. by rewrite Ha, (IH Hs).
Qed.

Lemma before_first_no_sep c s : Str.includes c (Str.before_first c s) = false.
Proof.
  induction s as [|a s IH]; simpl; [done|].
  destruct (Ascii.eqb a c) eqn:Ha; simpl; [done|]. by rewrite Ha, IH.
Qed.

Lemma before_first_id c s :
  Str.includes c s = false → Str.before_first c s = s.
Proof.
  induction s as [|a s IH]; simpl; [done|].
  intros [Ha Hs]%orb_false_iff. by rewrite Ha, (IH Hs).
Qed.

Lemma cut_at_first c s :
  Str.includes c s = true →
  s = Str.before_first c s +:+ String c (Str.after_first c s).
Proof.
  induction s as [|a s IH]; simpl; [done|].
  destruct (Ascii.eqb_spec a c) as [->|Hne]; simpl; [done|].
  intros Hs. rewrite app_cons. f_equal. by apply IH.
Qed.

(** However many dots a key has, its normalized key is the key with every
    dot replaced: the two-part case of the source agrees with the general
    one. *)
Lemma normalizedKey_dotted key :
  Str.includes Str.dot key = true →
  normalizedKey key = Str.replace_all Str.dot Str.underscore key.
Proof.
  intros Hdot. unfold normalizedKey. rewrite Hdot.
  destruct (Str.split Str.dot key) as [|p [|q [|r l]]] eqn:Hsplit; try done.
  rewrite split_first, Hdot in Hsplit.
  injection Hsplit as Hp Hrest.
  rewrite split_first in Hrest. injection Hrest as Hq Hmore.
  destruct (Str.includes Str.dot (Str.after_first Str.dot key)) eqn:Hmore';
    [by destruct (split_nonempty _ _ Hmore)|].
  rewrite (cut_at_first _ _ Hdot) at 1.
  rewrite replace_all_app. simpl.
  rewrite !replace_all_id
    by (apply before_first_no_sep || done).
  rewrite (before_first_id _ _ Hmore') in Hq. by subst p q.
Qed.

Lemma normalizedKey_one_dot a b :
  Str.includes Str.dot a = false → Str.includes Str.dot b = false →
  normalizedKey (a +:+ "." +:+ b) = a +:+ "_" +:+ b.
Proof.
  intros Ha Hb. unfold normalizedKey.
  rewrite includes_app. simpl. rewrite orb_true_r.
  change ("." +:+ b) with (String Str.dot b).
  rewrite split_app_sep by done. by rewrite split_no_sep.
Qed.

Lemma normalizedKey_alias : normalizedKey "gutachtenNr" = "gutachten_nr".
Proof. reflexivity. Qed.

Lemma normalizedKey_plain key :
  Str.includes Str.dot key = false → key ≠ "gutachtenNr" →
  object_prototype_key key = None → normalizedKey key = key.
Proof.
  intros Hdot Hne Hproto. unfold normalizedKey, mappedKey.
  rewrite Hdot, Hproto.
  destruct (String.eqb_spec key "gutachtenNr"); done.
Qed.

(** ** Normalization: where a value ends up *)

Lemma normalizeKeys_foldl data : normalizeKeys data = foldl assign empty_object data.
Proof. done. Qed.

Lemma set_property_other o k v j :
  k ≠ j → own (set_property o k v) !! j = own o !! j.
Proof.
  intros Hne. unfold set_property.
  destruct (_ && _); [by destruct v|]. simpl. by rewrite lookup_insert_ne.
Qed.

Lemma set_property_same o k v :
  k ≠ "__proto__" → own (set_property o k v) !! k = Some v.
Proof.
  intros Hne. unfold set_property.
  destruct (String.eqb_spec k "__proto__"); [done|]. simpl.
  by rewrite lookup_insert_eq.
Qed.

(** Every own property of an object after an assignment was there before or
    is the one assigned. *)
Lemma set_property_inv o k v j u :
  own (set_property o k v) !! j = Some u →
  own o !! j = Some u ∨ (j = k ∧ u = v).
Proof.
  unfold set_property. destruct (_ && _).
  - destruct v; auto.
  - simpl. destruct (decide (k = j)) as [->|Hne].
    + rewrite lookup_insert_eq. intros [= ->]. auto.
    + rewrite lookup_insert_ne by done. auto.
Qed.

Lemma foldl_assign_other (l : raw_record) o j :
  (∀ kv, kv ∈ l → normalizedKey kv.1 ≠ j) →
  own (foldl assign o l) !! j = own o !! j.
Proof.
  revert o. induction l as [|kv l IH]; intros o Hl; simpl; [done|].
  rewrite IH by (intros; apply Hl; by right).
  apply set_property_other, Hl. by left.
Qed.

Lemma foldl_assign_inv (l : raw_record) o j u :
  own (foldl assign o l) !! j = Some u →
  own o !! j = Some u ∨ ∃ k, (k, u) ∈ l ∧ normalizedKey k = j.
Proof.
  revert o. induction l as [|[k v] l IH]; intros o; simpl; [auto|].
  intros [H|(k' & Hin & Hk')]%IH.
  - apply set_property_inv in H as [H|[-> ->]]; [auto|].
    right. exists k. split; [by left | done].
  - right. exists k'. split; [by right | done].
Qed.

(** The value of a key that no other key of the input shares its normalized
    key with is an own property of the normalized object, under the
    normalized key. *)
Lemma normalizeKeys_lookup (data : raw_record) k v :
  (k, v) ∈ data →
  (∀ kv, kv ∈ data → normalizedKey kv.1 = normalizedKey k → kv = (k, v)) →
  normalizedKey k ≠ "__proto__" →
  own (normalizeKeys data) !! normalizedKey k = Some v.
Proof.
  intros Hin Huniq Hproto.
  apply list_elem_of_split_r in Hin as (l1 & l2 & -> & Hnotin).
  rewrite normalizeKeys_foldl, foldl_app. simpl.
  rewrite foldl_assign_other.
  - by apply set_property_same.
  - intros kv Hkv Heq. apply Hnotin.
    rewrite <- (Huniq kv); [done| |done].
    apply elem_of_app. right. by right.
Qed.

(** Of the keys with the same normalized key, the one enumerated last
    decides the own property. *)
Lemma normalizeKeys_last (l1 l2 : raw_record) k v :
  (∀ kv, kv ∈ l2 → normalizedKey kv.1 ≠ normalizedKey k) →
  normalizedKey k ≠ "__proto__" →
  own (normalizeKeys (l1 ++ (k, v) :: l2)) !! normalizedKey k = Some v.
Proof.
  intros Hlast Hproto. rewrite normalizeKeys_foldl, foldl_app. simpl.
  rewrite foldl_assign_other by done. by apply set_property_same.
Qed.

Lemma normalizeKeys_inv (data : raw_record) j u :
  own (normalizeKeys data) !! j = Some u →
  ∃ k, (k, u) ∈ data ∧ normalizedKey k = j.
Proof.
  rewrite normalizeKeys_foldl. intros [H|H]%foldl_assign_inv; [|done].
  simpl in H. by rewrite lookup_empty in H.
Qed.

Lemma normalizeFormData_other year now data j :
  j ≠ "gutachten_nr" →
  normalizeFormData year now data !! j = own (normalizeKeys data) !! j.
Proof.
  intros Hne. unfold normalizeFormData.
  destruct (negb _); [|done]. by rewrite lookup_insert_ne.
Qed.

Lemma normalizeFormData_truthy_nr year now data v :
  own (normalizeKeys data) !! "gutachten_nr" = Some v → truthy v = true →
  normalizeFormData year now data = own (normalizeKeys data).
Proof.
  intros Hv Ht. unfold normalizeFormData. rewrite Hv. simpl. by rewrite Ht.
Qed.

(** C4, as the specification states it, fails when two keys of the input
    normalize to the same key: the request body [{"a.b": "x", "a_b": "y"}]
    has distinct keys, yet the value of [a.b] is not stored under [a_b]. *)
Lemma normalize_collision_counterexample :
  let data := [("a.b", JStr "x"); ("a_b", JStr "y")] in
  NoDup data.*1 ∧ ("a.b", JStr "x") ∈ data ∧
  normalizedKey "a.b" = "a_b" ∧
  normalizeFormData 2025 1730000123456 data !! "a_b" = Some (JStr "y") ∧
  normalizeFormData 2025 1730000123456 data !! "a_b" ≠ Some (JStr "x").
Proof.
  cbv zeta. split_and!;
    [|set_solver|reflexivity|reflexivity|vm_compute; intros [=]].
  by apply (bool_decide_unpack (NoDup _)).
Qed.

(** C4 (amended).  The normalized key of a key is: [a_b] for [a.b] with one
    dot, the key with every dot replaced by an underscore for a key with
    dots, [gutachten_nr] for the alias [gutachtenNr], and the key itself for
    any other key that is not a member name of [Object.prototype].  The value
    of a key is stored unchanged under its normalized key when no other key of
    the input has the same normalized key, that key is not [__proto__], and,
    if it is the order number, the value is truthy.  When several keys have
    the same normalized key, the value of the one enumerated last is stored,
    under the same two conditions; and when the last key for the order number
    has a falsy value, the synthesized order number is stored instead.  Every
    entry of the normalized record other than the order number is the value
    of an input key stored under that key's normalized key. *)
Theorem normalizeFormData_keys (year now : N) (data : raw_record) :
  (∀ a b, Str.includes Str.dot a = false → Str.includes Str.dot b = false →
          normalizedKey (a +:+ "." +:+ b) = a +:+ "_" +:+ b) ∧
  (∀ key, Str.includes Str.dot key = true →
          normalizedKey key = Str.replace_all Str.dot Str.underscore key) ∧
  normalizedKey "gutachtenNr" = "gutachten_nr" ∧
  (∀ key, Str.includes Str.dot key = false → key ≠ "gutachtenNr" →
          object_prototype_key key = None → normalizedKey key = key) ∧
  (∀ k v, (k, v) ∈ data →
          (∀ kv, kv ∈ data → normalizedKey kv.1 = normalizedKey k →
                 kv = (k, v)) →
          normalizedKey k ≠ "__proto__" →
          (normalizedKey k = "gutachten_nr" → truthy v = true) →
          normalizeFormData year now data !! normalizedKey k = Some v) ∧
  (∀ l1 k v l2, data = l1 ++ (k, v) :: l2 →
          (∀ kv, kv ∈ l2 → normalizedKey kv.1 ≠ normalizedKey k) →
          normalizedKey k ≠ "__proto__" →
          (normalizedKey k = "gutachten_nr" → truthy v = true) →
          normalizeFormData year now data !! normalizedKey k = Some v) ∧
  (∀ l1 k v l2, data = l1 ++ (k, v) :: l2 →
          (∀ kv, kv ∈ l2 → normalizedKey kv.1 ≠ "gutachten_nr") →
          normalizedKey k = "gutachten_nr" → truthy v = false →
          normalizeFormData year now data !! "gutachten_nr"
          = Some (JStr (synthetic_nr year now))) ∧
  (∀ j u, j ≠ "gutachten_nr" →
          normalizeFormData year now data !! j = Some u →
          ∃ k, (k, u) ∈ data ∧ normalizedKey k = j).
Proof.
  split_and!.
  - apply normalizedKey_one_dot.
  - apply normalizedKey_dotted.
  - apply normalizedKey_alias.
  - apply normalizedKey_plain.
  - intros k v Hin Huniq Hproto Hnr.
    pose proof (normalizeKeys_lookup data k v Hin Huniq Hproto) as Hlook.
    destruct (decide (normalizedKey k = "gutachten_nr")) as [Heq|Hne].
    + rewrite Heq in *.
      by rewrite (normalizeFormData_truthy_nr _ _ _ v Hlook (Hnr eq_refl)).
    + by rewrite normalizeFormData_other.
  - intros l1 k v l2 -> Hlast Hproto Hnr.
    pose proof (normalizeKeys_last l1 l2 k v Hlast Hproto) as Hlook.
    destruct (decide (normalizedKey k = "gutachten_nr")) as [Heq|Hne].
    + rewrite Heq in *.
      by rewrite (normalizeFormData_truthy_nr _ _ _ v Hlook (Hnr eq_refl)).
    + by rewrite normalizeFormData_other.
  - intros l1 k v l2 -> Hlast Hk Hfalsy.
    assert (normalizedKey k ≠ "__proto__") as Hproto by by rewrite Hk.
    rewrite <- Hk in Hlast.
    pose proof (normalizeKeys_last l1 l2 k v Hlast Hproto) as Hlook.
    rewrite Hk in Hlook. unfold normalizeFormData.
    rewrite Hlook. simpl. rewrite Hfalsy. simpl. by rewrite lookup_insert_eq.
  - intros j u Hne. rewrite normalizeFormData_other by done.
    apply normalizeKeys_inv.
Qed.

Lemma normalizeFormData_keys_witness :
  normalizeFormData 2025 1730000123456
    [("auftraggeber.name", JStr "Max Mustermann"); ("unfall_ort", JStr "Bielefeld")]
    !! normalizedKey "auftraggeber.name" = Some (JStr "Max Mustermann").
Proof.
  destruct (normalizeFormData_keys 2025 1730000123456
              [("auftraggeber.name", JStr "Max Mustermann");
               ("unfall_ort", JStr "Bielefeld")])
    as (_ & _ & _ & _ & Hvalue & _).
  apply Hvalue.
  - set_solver.
  - intros kv [->|[->|[]%elem_of_nil]%elem_of_cons]%elem_of_cons; [done|].
    vm_compute. discriminate.
  - vm_compute. discriminate.
  - vm_compute. discriminate.
Defined.

(** ** The synthesized order number *)

Lemma decimal_value_from_app acc s t :
  decimal_value_from acc (s +:+ t) =
  decimal_value_from (decimal_value_from acc s) t.
Proof.
  revert acc. induction s as [|a s IH]; intros acc; [done|].
  rewrite app_cons. simpl. apply IH.
Qed.

Lemma digit_value_char d : (d < 10)%N → digit_value (pretty_N_char d) = d.
Proof.
  intros Hd.
  assert (d = 0 ∨ d = 1 ∨ d = 2 ∨ d = 3 ∨ d = 4 ∨ d = 5 ∨ d = 6 ∨ d = 7
          ∨ d = 8 ∨ d = 9)%N as Hcases by lia.
  repeat (destruct Hcases as [->|Hcases]; [reflexivity|]). by subst.
Qed.

Lemma pretty_N_go_app n s : pretty_N_go n s = digits n +:+ s.
Proof.
  unfold digits. revert s.
  induction (N.lt_wf_0 n) as [n _ IH]; intros s.
  destruct (decide (n = 0)%N) as [->|Hn]; [done|].
  rewrite !(pretty_N_go_step n) by lia.
  assert (n `div` 10 < n)%N as Hlt by (apply N.div_lt; lia).
  rewrite (IH _ Hlt (String _ s)), (IH _ Hlt (String _ "")).
  generalize (pretty_N_go (n `div` 10) ""). intros d.
  induction d as [|a d IHd]; [done|]. rewrite !app_cons. by f_equal.
Qed.

Lemma digits_step n :
  (0 < n)%N →
  digits n = digits (n `div` 10) +:+ String (pretty_N_char (n `mod` 10)) "".
Proof.
  intros Hn. unfold digits at 1. rewrite pretty_N_go_step by done.
  apply pretty_N_go_app.
Qed.

Lemma pretty_N_digits n : (0 < n)%N → pretty n = digits n.
Proof.
  intros Hn. unfold pretty, pretty_N. destruct (decide (n = 0)%N); [lia|done].
Qed.

Lemma length_app s t :
  String.length (s +:+ t) = (String.length s + String.length t)%nat.
Proof. induction s as [|a s IH]; [done|]. rewrite app_cons. simpl. lia. Qed.

Lemma drop_app n s t :
  (n ≤ String.length s)%nat → Str.drop n (s +:+ t) = Str.drop n s +:+ t.
Proof.
  revert n. induction s as [|a s IH]; intros [|n] Hn; try done.
  - simpl in Hn. lia.
  - rewrite app_cons. simpl in *. apply IH. lia.
Qed.

Lemma slice_last_snoc k s a :
  Str.slice_last (S k) (s +:+ String a "") =
  Str.slice_last k s +:+ String a "".
Proof.
  unfold Str.slice_last. rewrite length_app. simpl.
  replace (String.length s + 1 - S k)%nat with (String.length s - k)%nat
    by lia.
  apply drop_app. lia.
Qed.

(** The last [k] digits of a number denote the number modulo [10^k]. *)
Lemma slice_last_digits k n :
  decimal_value (Str.slice_last k (digits n)) = (n `mod` 10 ^ N.of_nat k)%N.
Proof.
  revert n. induction k as [|k IH]; intros n.
  - unfold Str.slice_last. rewrite Nat.sub_0_r.
    assert (∀ s, Str.drop (String.length s) s = "") as ->
      by (intros s; induction s; done).
    simpl. by rewrite N.mod_1_r.
  - destruct (decide (n = 0)%N) as [->|Hn].
    { rewrite N.Div0.mod_0_l. done. }
    rewrite digits_step by lia. rewrite slice_last_snoc.
    unfold decimal_value. rewrite decimal_value_from_app. simpl.
    fold (decimal_value (Str.slice_last k (digits (n `div` 10)))).
    rewrite IH, digit_value_char by (apply N.mod_lt; lia).
    rewrite Nat2N.inj_succ, N.pow_succ_r'.
    rewrite (N.Div0.mod_mul_r n 10). lia.
Qed.

Lemma slice_last_pretty n :
  decimal_value (Str.slice_last 6 (pretty n)) = (n `mod` 1000000)%N.
Proof.
  destruct (decide (n = 0)%N) as [->|Hn]; [done|].
  rewrite pretty_N_digits by lia. apply (slice_last_digits 6).
Qed.

Lemma synthetic_nr_nonempty year now : synthetic_nr year now ≠ "".
Proof. done. Qed.

(** Two clock readings less than [10^6] milliseconds apart give the same
    synthesized number only if they are equal. *)
Lemma synthetic_nr_inj year now now' :
  (now < now' + 1000000)%N → (now' < now + 1000000)%N →
  synthetic_nr year now = synthetic_nr year now' → now = now'.
Proof.
  intros H1 H2 Heq. unfold synthetic_nr in Heq.
  do 3 apply String.app_inj in Heq.
  apply (f_equal decimal_value) in Heq.
  rewrite !slice_last_pretty in Heq.
  rewrite (N.div_mod now 1000000), (N.div_mod now' 1000000) in H1, H2 |- * by lia.
  rewrite Heq in *.
  assert (now `div` 1000000 = now' `div` 1000000)%N by nia.
  congruence.
Qed.

(** C8.  When the keys of the input produce no order number, the normalized
    record carries a synthesized one: ["DS-"], the year, ["-"] and the last
    six digits of the clock's milliseconds; it is not empty, and two such
    numbers made in the same year from different clock readings less than
    [10^6] milliseconds apart differ. *)
Theorem normalizeFormData_synthesizes (year now : N) (data : raw_record) :
  own (normalizeKeys data) !! "gutachten_nr" = None →
  normalizeFormData year now data !! "gutachten_nr"
    = Some (JStr ("DS-" +:+ pretty year +:+ "-" +:+
                  Str.slice_last 6 (pretty now))) ∧
  synthetic_nr year now ≠ "" ∧
  decimal_value (Str.slice_last 6 (pretty now)) = (now `mod` 1000000)%N ∧
  ∀ now' : N,
    now ≠ now' → (now < now' + 1000000)%N → (now' < now + 1000000)%N →
    normalizeFormData year now data !! "gutachten_nr"
    ≠ normalizeFormData year now' data !! "gutachten_nr".
Proof.
  intros Hnone.
  assert (∀ t, normalizeFormData year t data !! "gutachten_nr"
               = Some (JStr (synthetic_nr year t))) as Hsyn.
  { intros t. unfold normalizeFormData. rewrite Hnone. simpl.
    apply lookup_insert_eq. }
  split_and!.
  - apply Hsyn.
  - apply synthetic_nr_nonempty.
  - apply slice_last_pretty.
  - intros now' Hne H1 H2. rewrite !Hsyn. intros Heq.
    apply Hne, (synthetic_nr_inj year now now' H1 H2). congruence.
Qed.

Lemma normalizeFormData_synthesizes_witness :
  normalizeFormData 2025 1730000123456
    [("auftraggeber.name", JStr "Max Mustermann")] !! "gutachten_nr"
  = Some (JStr "DS-2025-123456").
Proof.
  apply (normalizeFormData_synthesizes 2025 1730000123456
           [("auftraggeber.name", JStr "Max Mustermann")]).
  reflexivity.
Defined.

(** ** The combined contact string *)

Lemma trim_empty : Str.trim "" = "".
Proof. reflexivity. Qed.

Lemma split_lookup_0 c s : Str.split c s !! 0%nat = Some (Str.before_first c s).
Proof. by rewrite split_first. Qed.

Lemma split_lookup_1 c s :
  Str.split c s !! 1%nat =
  if Str.includes c s
  then Some (Str.before_first c (Str.after_first c s)) else None.
Proof.
  rewrite split_first. destruct (Str.includes c s); [|done].
  simpl. by rewrite split_first.
Qed.

Lemma after_first_no_sep c s : Str.includes c s = false → Str.after_first c s = "".
Proof.
  induction s as [|a s IH]; simpl; [done|].
  intros [Ha Hs]%orb_false_iff. rewrite Ha. auto.
Qed.

(** [p || ''] printed, for a string [p]. *)
Lemma or_empty_string p :
  field_to_string (js_or (Some (JStr p)) (Some (JStr ""))) = p.
Proof.
  unfold js_or. simpl. destruct (String.eqb_spec p ""); by subst.
Qed.

Lemma pdfKontakt_string (formData : record) s :
  formData !! "auftraggeber_kontakt" = Some (JStr s) →
  pdfKontakt formData = Ok (kontakt_email s, kontakt_phone s).
Proof.
  intros Hs. unfold pdfKontakt. rewrite Hs.
  assert (js_or (Some (JStr s)) (Some (JStr "")) = Some (JStr s)) as ->.
  { unfold js_or. simpl. destruct (String.eqb_spec s ""); by subst. }
  unfold part. rewrite !list_lookup_fmap, split_lookup_0, split_lookup_1.
  simpl. rewrite or_empty_string. f_equal. f_equal.
  unfold kontakt_phone.
  destruct (Str.includes Str.slash s) eqn:Hinc; simpl.
  - apply or_empty_string.
  - by rewrite after_first_no_sep.
Qed.

Lemma notionKontakt_string (formData : record) s :
  formData !! "auftraggeber_kontakt" = Some (JStr s) →
  notionKontakt formData = Ok (kontakt_email s, kontakt_phone s).
Proof.
  intros Hs. unfold notionKontakt. rewrite Hs. simpl.
  destruct (String.eqb_spec s "") as [->|Hne]; simpl; [done|].
  unfold part. rewrite split_lookup_0, split_lookup_1. simpl.
  f_equal. f_equal.
  - unfold kontakt_email.
    by destruct (String.eqb_spec (Str.before_first Str.slash s) "") as [->|].
  - unfold kontakt_phone.
    destruct (Str.includes Str.slash s) eqn:Hinc; simpl.
    + by destruct (String.eqb_spec
                     (Str.before_first Str.slash (Str.after_first Str.slash s))
                     "") as [->|].
    + by rewrite after_first_no_sep.
Qed.

(** C9, as the specification states it, fails for a contact string with two
    slashes: the phone number is the text between the first and the second
    slash, not the whole remainder after the first. *)
Lemma kontakt_remainder_counterexample :
  let formData : record :=
    {["auftraggeber_kontakt" := JStr "a@b.de / 0151 / 99"]} in
  pdfKontakt formData = Ok ("a@b.de", "0151") ∧
  notionKontakt formData = Ok ("a@b.de", "0151") ∧
  Str.trim (Str.after_first Str.slash "a@b.de / 0151 / 99") = "0151 / 99" ∧
  pdfKontakt formData
  ≠ Ok (Str.trim (Str.before_first Str.slash "a@b.de / 0151 / 99"),
        Str.trim (Str.after_first Str.slash "a@b.de / 0151 / 99")).
Proof.
  cbv zeta. split_and!; [reflexivity..|]. vm_compute. intros [=].
Qed.

(** C9 (amended).  For a contact string, the e-mail is the trimmed text
    before the first slash and the phone number is the trimmed text between
    the first slash and the second one (the whole remainder when there is no
    second slash), in the client section of the document and in the [Email]
    and [Phone] properties of the contact entry alike. *)
Theorem kontakt_split (lay : Layout) (formData : record) (s : string) :
  formData !! "auftraggeber_kontakt" = Some (JStr s) →
  let email := Str.trim (Str.before_first Str.slash s) in
  let phone :=
    Str.trim (Str.before_first Str.slash (Str.after_first Str.slash s)) in
  (∃ ops y, drawDocument lay formData = Ok ops
            ∧ Text ("E-Mail: " +:+ email) 50 y ∈ ops
            ∧ Text ("Telefon: " +:+ phone) 50 (y + 15) ∈ ops) ∧
  (∃ props, buildKontakteProperties formData = Ok props
            ∧ props !! "Email" = Some (PEmail email)
            ∧ props !! "Phone" =
                Some (PPhone (if String.eqb phone "" then None
                              else Some phone))) ∧
  (Str.includes Str.slash (Str.after_first Str.slash s) = false →
   phone = Str.trim (Str.after_first Str.slash s)).
Proof.
  intros Hs email phone. split_and!.
  - unfold drawDocument. rewrite (pdfKontakt_string _ _ Hs).
    destruct (orderSection formData 190) as [order yPos].
    fold email phone. unfold clientSection.
    destruct (vehicleSection formData (yPos + 110)) as [vehicle yPos1].
    destruct (accidentSection lay formData yPos1) as [accident yPos2].
    eexists _, (yPos + 55). split; [reflexivity|].
    replace (yPos + 55 + 15) with (yPos + 70) by lia.
    split; rewrite !elem_of_app; right; right; left.
    + do 7 apply list_elem_of_further. apply list_elem_of_here.
    + do 8 apply list_elem_of_further. apply list_elem_of_here.
  - unfold buildKontakteProperties. rewrite (notionKontakt_string _ _ Hs).
    eexists. split; [reflexivity|]. split; by simplify_map_eq.
  - intros Hno. subst phone. by rewrite before_first_id.
Qed.

Lemma kontakt_split_witness :
  ∃ props,
    buildKontakteProperties
      {["auftraggeber_kontakt" := JStr "max@test.de / 0151123456"]} = Ok props
    ∧ props !! "Email" = Some (PEmail "max@test.de")
    ∧ props !! "Phone" = Some (PPhone (Some "0151123456")).
Proof.
  apply (kontakt_split (mkLayout "" (fun _ => 0) (fun _ => true))
           {["auftraggeber_kontakt" := JStr "max@test.de / 0151123456"]}
           "max@test.de / 0151123456").
  reflexivity.
Defined.

(** ** Validation *)

Lemma check_required_first (data : record) (fields : list string) :
  (∃ f, f ∈ fields ∧ field_missing (data !! f) = true) →
  ∃ before f after,
    fields = before ++ f :: after
    ∧ Forall (fun g => field_missing (data !! g) = false) before
    ∧ field_missing (data !! f) = true
    ∧ check_required data fields = Throw ("Erforderliches Feld fehlt: " +:+ f).
Proof.
  induction fields as [|g fields IH]; intros (f & Hin & Hf).
  - by apply elem_of_nil in Hin.
  - simpl. destruct (field_missing (data !! g)) eqn:Hg.
    + exists [], g, fields. by split_and!.
    + apply elem_of_cons in Hin as [->|Hin]; [congruence|].
      destruct IH as (before & f' & after & -> & Hall & Hf' & Hthrow);
        [eauto|].
      exists (g :: before), f', after. split_and!; try done.
      by constructor.
Qed.

Lemma check_required_ok (data : record) (fields : list string) :
  check_required data fields = Ok tt ↔
  Forall (fun g => field_missing (data !! g) = false) fields.
Proof.
  induction fields as [|g fields IH]; simpl.
  - split; [constructor | done].
  - destruct (field_missing (data !! g)) eqn:Hg.
    + split; [done|]. intros [? _]%Forall_cons. congruence.
    + rewrite IH. split; [by constructor | by intros [_ ?]%Forall_cons].
Qed.

(** A field passes the test of the validator exactly when it is present and
    truthy and its text is more than white space. *)
Lemma field_missing_false (f : field) :
  field_missing f = false ↔
  ∃ v, f = Some v ∧ truthy v = true ∧ Str.trim (to_string v) ≠ "".
Proof.
  destruct f as [v|]; simpl.
  - rewrite orb_false_iff, negb_false_iff. split.
    + intros [Ht Htrim]. exists v. split_and!; try done.
      by destruct (String.eqb_spec (Str.trim (to_string v)) "").
    + intros (? & [= <-] & Ht & Htrim). split; [done|].
      by destruct (String.eqb_spec (Str.trim (to_string v)) "").
  - split; [done | by intros (? & ? & _)].
Qed.

(** What a record that passes validation is known to have. *)
Lemma validateFormData_ok (data : record) :
  validateFormData data = Ok tt →
  Forall (fun g => field_missing (data !! g) = false) required
  ∧ ∃ s, data !! "auftraggeber_kontakt" = Some (JStr s).
Proof.
  unfold validateFormData.
  destruct (check_required data required) as [[]|] eqn:Hreq; [|done].
  apply check_required_ok in Hreq. intros Hmail. split; [done|].
  unfold check_email in Hmail.
  assert (field_missing (data !! "auftraggeber_kontakt") = false) as Hk.
  { eapply Forall_forall in Hreq; [done|]. unfold required. set_solver. }
  apply field_missing_false in Hk as (v & Hv & Ht & _).
  rewrite Hv in Hmail |- *. destruct v; eauto; by rewrite Ht in Hmail.
Qed.

(** ** What a computation may change *)

#[global] Instance changes_preorder P Q kf kd : PreOrder (changes P Q kf kd).
Proof.
  split.
  - intros w. split; try done; exists []; by rewrite app_nil_r.
  - intros w1 w2 w3 [(l1 & Hc1 & Hl1) (p1 & Hp1 & Hq1) Hf1 Hd1]
                    [(l2 & Hc2 & Hl2) (p2 & Hp2 & Hq2) Hf2 Hd2].
    split.
    + exists (l1 ++ l2). rewrite Hc2, Hc1, app_assoc.
      split; [done | by apply Forall_app].
    + exists (p1 ++ p2). rewrite Hp2, Hp1, app_assoc.
      split; [done | by apply Forall_app].
    + intros Hk. by rewrite Hf2, Hf1.
    + intros Hk. by rewrite Hd2, Hd1.
Qed.

Lemma changes_weaken (P P' : Call → Prop) (Q Q' : NotionPage → Prop)
    (kf kd kf' kd' : bool) w w' :
  (∀ c, P c → P' c) → (∀ p, Q p → Q' p) →
  (kf' = true → kf = true) → (kd' = true → kd = true) →
  changes P Q kf kd w w' → changes P' Q' kf' kd' w w'.
Proof.
  intros HP HQ Hf Hd [(l & Hc & Hl) (p & Hp & Hq) Hfiles Hdrive].
  split; eauto using Forall_impl.
Qed.

Lemma changes_nothing_calls Q kf kd w w' :
  changes nothing Q kf kd w w' → calls w' = calls w.
Proof.
  intros [(l & Hc & Hl) _ _ _]. destruct l as [|c l].
  - by rewrite app_nil_r in Hc.
  - by apply Forall_cons in Hl as [[] _].
Qed.

Lemma changes_nothing_pages P kf kd w w' :
  changes P nothing kf kd w w' → notion_pages w' = notion_pages w.
Proof.
  intros [_ (l & Hc & Hl) _ _]. destruct l as [|c l].
  - by rewrite app_nil_r in Hc.
  - by apply Forall_cons in Hl as [[] _].
Qed.

Lemma changes_logged P Q kf kd c w : P c → changes P Q kf kd w (logged c w).
Proof.
  intros Hc. split; try done.
  - exists [c]. split; [done | by constructor].
  - exists []. by rewrite app_nil_r.
Qed.

Lemma changes_ticked P Q kf kd w : changes P Q kf kd w (ticked w).
Proof. split; try done; exists []; by rewrite app_nil_r. Qed.

Section Preserves.

Context (R : relation World) `{!PreOrder R}.

Lemma preserves_ret {A} (a : A) : preserves R (ret a).
Proof. intros w. reflexivity. Qed.

Lemma preserves_throw {A} msg : preserves R (throw (A := A) msg).
Proof. intros w. reflexivity. Qed.

Lemma preserves_lift {A} (r : Result A) : preserves R (lift r).
Proof. intros w. reflexivity. Qed.

Lemma preserves_bind {A B} (m : M A) (k : A → M B) :
  preserves R m → (∀ a, preserves R (k a)) → preserves R (bind m k).
Proof.
  intros Hm Hk w. unfold bind. specialize (Hm w).
  destruct (m w) as [[a|e] w1]; simpl in *; [|done].
  etrans; [done | apply Hk].
Qed.

Lemma preserves_bind_lift_ok {A B} (a : A) (k : A → M B) :
  preserves R (k a) → preserves R (bind (lift (Ok a)) k).
Proof. intros Hk w. apply Hk. Qed.

Lemma preserves_bind_lift_throw {A B} e (k : A → M B) :
  preserves R (bind (lift (Throw e)) k).
Proof. intros w. reflexivity. Qed.

Lemma preserves_try_catch {A} (m : M A) (h : string → M A) :
  preserves R m → (∀ e, preserves R (h e)) → preserves R (try_catch m h).
Proof.
  intros Hm Hh w. unfold try_catch. specialize (Hm w).
  destruct (m w) as [[a|e] w1]; simpl in *; [done|].
  etrans; [done | apply Hh].
Qed.

Lemma preserves_request {A} env c (serve : M A) :
  (∀ w, R w (logged c w)) → preserves R serve →
  preserves R (request env c serve).
Proof.
  intros Hlog Hserve w. unfold request.
  destruct (fault env (tick w) c); simpl; [done|].
  etrans; [apply Hlog | apply Hserve].
Qed.

Lemma preserves_read_clock {A} env (f : Env → nat → A) :
  (∀ w, R w (ticked w)) → preserves R (read_clock env f).
Proof. intros Htick w. apply Htick. Qed.

End Preserves.

Lemma preserves_weaken {A} (R R' : relation World) (m : M A) :
  (∀ w w', R w w' → R' w w') → preserves R m → preserves R' m.
Proof. intros HR Hm w. apply HR, Hm. Qed.

(** One step of a proof that a pipeline function keeps a [changes]
    relation. *)
Ltac preserves_step :=
  lazymatch goal with
  | |- preserves _ (bind (lift (Ok _)) _) =>
      apply preserves_bind_lift_ok
  | |- preserves _ (bind (lift (Throw _)) _) =>
      apply preserves_bind_lift_throw; apply _
  | |- preserves _ (bind _ _) => apply preserves_bind; [apply _| |intros ?]
  | |- preserves _ (try_catch _ _) =>
      apply preserves_try_catch; [apply _| |intros ?]
  | |- preserves _ (ret _) => apply preserves_ret; apply _
  | |- preserves _ (throw _) => apply preserves_throw; apply _
  | |- preserves _ (lift _) => apply preserves_lift; apply _
  | |- preserves _ (read_clock _ _) =>
      apply preserves_read_clock; intros ?; apply changes_ticked
  | |- preserves _ (match ?x with _ => _ end) => destruct x
  end.

Section Stages.

Context (env : Env) (srv : Server).

Lemma normalizeStep_changes data :
  preserves (changes nothing nothing true true) (normalizeStep env data).
Proof. unfold normalizeStep. repeat preserves_step. Qed.

Lemma fs_write_changes filePath doc :
  preserves (changes is_write_call nothing false true)
            (fs_write env filePath doc).
Proof.
  apply preserves_request; [apply _| |].
  - intros w. apply changes_logged. by exists filePath.
  - intros w. split; try done; exists []; by rewrite app_nil_r.
Qed.

Lemma generatePDFFile_changes formData :
  preserves (changes is_write_call nothing false true)
            (generatePDFFile env formData).
Proof.
  unfold generatePDFFile. repeat preserves_step. apply fs_write_changes.
Qed.

(** Requests to Google Drive leave the temporary files and Notion alone. *)
Lemma drive_request_changes {A} c (serve : M A) :
  drive_call c →
  (∀ w, files (serve w).2 = files w ∧ calls (serve w).2 = calls w
        ∧ notion_pages (serve w).2 = notion_pages w) →
  preserves (changes drive_call nothing true false) (request env c serve).
Proof.
  intros Hc Hserve. apply preserves_request; [apply _| |].
  - intros w. by apply changes_logged.
  - intros w. destruct (Hserve w) as (Hf & Hcalls & Hn).
    split; try done; exists []; by rewrite app_nil_r.
Qed.

Lemma uploadToGoogleDrive_changes formData pdfFilePath :
  preserves (changes drive_call nothing true false)
            (uploadToGoogleDrive env srv formData pdfFilePath).
Proof.
  unfold uploadToGoogleDrive. repeat preserves_step.
  all: unfold drive_get, drive_list, drive_create_folder,
         drive_create_file, drive_share.
  all: apply drive_request_changes; [done|]; intros w; by repeat case_match.
Qed.

Lemma uploadStage_changes formData pdfFilePath :
  preserves (changes drive_call nothing true false)
            (uploadStage env srv formData pdfFilePath).
Proof.
  unfold uploadStage. destruct (_ && _); repeat preserves_step.
  apply uploadToGoogleDrive_changes.
Qed.

Lemma notion_query_changes P db k :
  preserves (changes (notion_call_where P) (fun p => P (pg_props p)) true true)
            (notion_query env db k).
Proof.
  apply preserves_request; [apply _| |].
  - intros w. by apply changes_logged.
  - intros w. split; try done; exists []; by rewrite app_nil_r.
Qed.

Lemma notion_create_changes (P : properties → Prop) db props :
  P props →
  preserves (changes (notion_call_where P) (fun p => P (pg_props p)) true true)
            (notion_create env db props).
Proof.
  intros HP. apply preserves_request; [apply _| |].
  - intros w. by apply changes_logged.
  - intros w. split; try done.
    + exists []. by rewrite app_nil_r.
    + eexists [_]. split; [done|]. by constructor.
Qed.

Lemma processNotionIntegration_changes (P : properties → Prop) formData link :
  (∀ props, buildKontakteProperties formData = Ok props → P props) →
  (∀ id, P (buildGutachtenResourceProperties formData link id)) →
  preserves (changes (notion_call_where P) (fun p => P (pg_props p)) true true)
            (processNotionIntegration env srv formData link).
Proof.
  intros Hk Hr.
  unfold processNotionIntegration, customerStep, resourceStep,
    findCustomerByKennzeichen.
  destruct (buildKontakteProperties formData) as [props|e] eqn:Hprops;
    repeat preserves_step;
    solve [ apply notion_query_changes
          | apply notion_create_changes; (apply Hr || by apply Hk) ].
Qed.

Lemma notionStep_changes (P : properties → Prop) formData link :
  (∀ props, buildKontakteProperties formData = Ok props → P props) →
  (∀ id, P (buildGutachtenResourceProperties formData link id)) →
  preserves (changes (notion_call_where P) (fun p => P (pg_props p)) true true)
            (notionStep env srv formData link).
Proof.
  intros Hk Hr. unfold notionStep. destruct (notion srv); repeat preserves_step.
  by apply processNotionIntegration_changes.
Qed.

End Stages.

(** ** The pipeline, stage by stage *)

Lemma normalizeStep_run env data w :
  ∃ w', normalizeStep env data w = (Ok (normalized_in env w data), w')
        ∧ changes nothing nothing true true w w'.
Proof.
  pose proof (normalizeStep_changes env data w) as Hch.
  unfold normalizeStep, normalized_in, normalizeFormData in *.
  destruct (negb _); eexists; split; try done.
Qed.

Lemma prepare_changes env data :
  preserves (changes nothing nothing true true) (prepare env data).
Proof.
  unfold prepare. repeat preserves_step. apply normalizeStep_changes.
Qed.

(** A validation failure ends [prepare] with that failure. *)
Lemma prepare_invalid env data w m :
  validateFormData (normalized_in env w data) = Throw m →
  ∃ w', prepare env data w = (Throw m, w').
Proof.
  intros Hm. destruct (normalizeStep_run env data w) as (w1 & Hn & _).
  unfold prepare, bind, lift. rewrite Hn, Hm. eauto.
Qed.

Lemma processGutachtenSubmission_run env srv data w :
  processGutachtenSubmission env srv data w =
  match prepare env data w with
  | (Throw m, w1) => (Throw m, w1)
  | (Ok (formData, timestamp), w1) =>
      match generatePDFFile env formData w1 with
      | (Throw _, w2) => (Throw "PDF-Generierung fehlgeschlagen", w2)
      | (Ok pdfFilePath, w2) =>
          match uploadStage env srv formData pdfFilePath w2 with
          | (Throw m, w3) => (Throw m, w3)
          | (Ok (googleDrive, link), w3) =>
              match notionStep env srv formData link w3 with
              | (Throw m, w4) => (Throw m, w4)
              | (Ok notionResult, w4) =>
                  (Ok (mkResult timestamp (formData !! "gutachten_nr")
                                pdfFilePath googleDrive notionResult), w4)
              end
          end
      end
  end.
Proof.
  unfold processGutachtenSubmission, prepare, bind, try_catch, lift, ret,
    throw, read_clock.
  destruct (normalizeStep env data w) as [[formData|m] w1]; [|done].
  destruct (validateFormData formData) as [[]|m]; [|done].
  destruct (generatePDFFile env formData (ticked w1)) as [[p|e] w2]; [|done].
  destruct (uploadStage env srv formData p w2) as [[[gd link]|m] w3]; [|done].
  by destruct (notionStep env srv formData link w3) as [[n|m] w4].
Qed.

(** Stages 2 and 3 never throw. *)
Lemma uploadStage_returns env srv formData p w :
  ∃ outcome link w', uploadStage env srv formData p w = (Ok (outcome, link), w').
Proof.
  unfold uploadStage, try_catch, bind, ret.
  destruct (_ && _); [|eauto].
  destruct (uploadToGoogleDrive env srv formData p w) as [[r|e] w']; eauto.
Qed.

Lemma notionStep_returns env srv formData link w :
  ∃ outcome w', notionStep env srv formData link w = (Ok outcome, w').
Proof.
  unfold notionStep, try_catch, bind, ret.
  destruct (notion srv); [|eauto].
  destruct (processNotionIntegration env srv formData link w) as [[r|e] w'];
    eauto.
Qed.

(** A joined path is never empty. *)
Lemma normalize_nonempty path : Path.normalize path ≠ "".
Proof.
  unfold Path.normalize. cbv zeta.
  destruct (String.eqb path ""); [done|].
  destruct (Path.normalizeString _ _) as [|a n]; simpl.
  - by repeat case_match.
  - repeat case_match; by rewrite ?app_cons.
Qed.

Lemma join_nonempty paths : Path.join paths ≠ "".
Proof.
  unfold Path.join. case_match; [done | apply normalize_nonempty].
Qed.

(** A rendered document lies under the path that [generatePDFFile]
    returns. *)
Lemma generatePDFFile_ok env formData w p w' :
  generatePDFFile env formData w = (Ok p, w') →
  p ≠ "" ∧ is_Some (files w' !! p).
Proof.
  unfold generatePDFFile, bind, read_clock, lift, fs_write, request, ret.
  destruct (drawDocument _ _) as [doc|e]; [|done]. simpl.
  destruct (fault _ _ _); [done|]. intros [= <- <-].
  split; [apply join_nonempty|].
  simpl. rewrite lookup_insert_eq. eauto.
Qed.

(** ** C1: a rendering failure is fatal *)

(** C1.  When rendering fails for a submission that passed validation, the
    pipeline throws ["PDF-Generierung fehlgeschlagen"]; no request was sent to
    Google Drive or Notion, and their contents are as before. *)
Theorem render_failure_is_fatal (env : Env) (srv : Server) (data : raw_record)
    (w w1 w2 : World) (formData : record) (timestamp e : string) :
  prepare env data w = (Ok (formData, timestamp), w1) →
  generatePDFFile env formData w1 = (Throw e, w2) →
  processGutachtenSubmission env srv data w
    = (Throw "PDF-Generierung fehlgeschlagen", w2)
  ∧ (∃ l, calls w2 = calls w ++ l
          ∧ Forall (fun c => is_drive_call c = false
                             ∧ is_notion_call c = false) l)
  ∧ drive_files w2 = drive_files w
  ∧ notion_pages w2 = notion_pages w.
Proof.
  intros Hprep Hgen.
  rewrite processGutachtenSubmission_run, Hprep, Hgen. split; [done|].
  pose proof (prepare_changes env data w) as H1.
  pose proof (generatePDFFile_changes env formData w1) as H2.
  rewrite Hprep in H1. rewrite Hgen in H2. simpl in *.
  assert (changes is_write_call nothing false true w w2) as [Hc Hp _ Hd].
  { etrans; [|done]. revert H1. by apply changes_weaken. }
  split_and!.
  - destruct Hc as (l & Hl & Hall). exists l. split; [done|].
    eapply Forall_impl; [done|]. by intros c [p ->].
  - by apply Hd.
  - destruct Hp as (l & Hl & Hall). destruct l as [|p l].
    + by rewrite app_nil_r in Hl.
    + by apply Forall_cons in Hall as [[] _].
Qed.

Lemma render_failure_is_fatal_witness :
  (processGutachtenSubmission Example.env_disk_full Example.srv Example.body
     Example.world).1 = Throw "PDF-Generierung fehlgeschlagen".
Proof.
  set (env := Example.env_disk_full).
  set (formData := normalized_in env Example.world Example.body).
  set (w1 := (prepare env Example.body Example.world).2).
  destruct (render_failure_is_fatal env Example.srv Example.body
              Example.world w1 (generatePDFFile env formData w1).2 formData
              "2025-01-01T00:00:00.000Z" "ENOSPC: no space left on device")
    as [Hrun _]; [vm_compute; reflexivity..|].
  rewrite Hrun. reflexivity.
Defined.

(** ** C3: validation fails fast, before any side effect *)

(** A field that the specification calls missing is missing for the
    validator. *)
Lemma absent_or_blank_missing (f : field) :
  absent_or_blank f = true → field_missing f = true.
Proof.
  destruct f as [[s| | |]|]; simpl; try done.
  intros ->. apply orb_true_r.
Qed.

(** C3, as the specification states it, fails for a record with a falsy
    value that is not a string: the name is [false] and the address is
    absent, so the first field absent or blank is the address, yet the
    validator names the name. *)
Lemma validate_falsy_counterexample :
  let data : record :=
    <["auftraggeber_name" := JBool false]>
      (delete "auftraggeber_adresse" (Example.formData "DS-2025-000001")) in
  (fst <$> list_find (fun f => absent_or_blank (data !! f) = true) required)
     = Some 2%nat
  ∧ required !! 2%nat = Some "auftraggeber_adresse"
  ∧ validateFormData data
    = Throw "Erforderliches Feld fehlt: auftraggeber_name"
  ∧ validateFormData data
    ≠ Throw "Erforderliches Feld fehlt: auftraggeber_adresse".
Proof.
  cbv zeta. split_and!; [by vm_compute..|]. vm_compute. intros [=].
Qed.

(** C3 (amended).  A required field counts as missing when it is absent, when
    its value is falsy ([null], [false], [0] or the empty string), or when its
    text is only white space.  For a record with such a field, validation
    throws the error that names the first such field in the order of the
    required fields; and a submission whose normalized record fails
    validation ends with that error before any request is made: the request
    log, the temporary files, Drive and Notion are as they were. *)
Theorem validation_fails_first (data : record) :
  (∃ f, f ∈ required ∧ field_missing (data !! f) = true) →
  ∃ before f after,
    required = before ++ f :: after
    ∧ Forall (fun g => field_missing (data !! g) = false) before
    ∧ field_missing (data !! f) = true
    ∧ validateFormData data = Throw ("Erforderliches Feld fehlt: " +:+ f)
    ∧ ∀ env srv body w,
        normalized_in env w body = data →
        ∃ w', processGutachtenSubmission env srv body w
              = (Throw ("Erforderliches Feld fehlt: " +:+ f), w')
              ∧ calls w' = calls w
              ∧ files w' = files w
              ∧ drive_files w' = drive_files w
              ∧ notion_pages w' = notion_pages w.
Proof.
  intros Hmissing.
  destruct (check_required_first data required Hmissing)
    as (before & f & after & Hreq & Hbefore & Hf & Hthrow).
  exists before, f, after.
  assert (validateFormData data
          = Throw ("Erforderliches Feld fehlt: " +:+ f)) as Hval.
  { unfold validateFormData. by rewrite Hthrow. }
  split_and!; try done.
  intros env srv body w <-.
  destruct (prepare_invalid env body w _ Hval) as (w' & Hprep).
  exists w'. rewrite processGutachtenSubmission_run, Hprep.
  pose proof (prepare_changes env body w) as Hch. rewrite Hprep in Hch.
  simpl in Hch. split_and!; try done.
  - by eapply changes_nothing_calls.
  - by apply Hch.
  - by apply Hch.
  - by eapply changes_nothing_pages.
Qed.

Lemma validation_fails_first_witness :
  validateFormData (delete "unfall_tag" (Example.formData "DS-2025-000001"))
  = Throw "Erforderliches Feld fehlt: unfall_tag".
Proof.
  destruct (validation_fails_first
              (delete "unfall_tag" (Example.formData "DS-2025-000001")))
    as (before & f & after & Hreq & Hbefore & Hf & Hthrow & _).
  - exists "unfall_tag". split; [|by vm_compute].
    unfold required. do 5 apply list_elem_of_further. apply list_elem_of_here.
  - rewrite Hthrow. f_equal.
    assert (f = "unfall_tag") as ->; [|done].
    unfold validateFormData in Hthrow. vm_compute in Hthrow.
    by injection Hthrow as <-.
Defined.

(** For a record whose required fields are strings or absent, the fields the
    validator rejects are exactly those absent or blank. *)
Lemma field_missing_string (f : field) :
  (∀ v, f = Some v → ∃ s, v = JStr s) →
  field_missing f = absent_or_blank f.
Proof.
  destruct f as [v|]; [|done]. intros Hstr.
  destruct (Hstr v eq_refl) as (s & ->). simpl.
  destruct (String.eqb_spec s "") as [->|Hne]; done.
Qed.

(** ** C5: the temporary file *)

(** C5, as the specification states it, fails: after a submission whose
    upload succeeded, the rendered file is still in the temporary
    directory. *)
Lemma temp_file_left_counterexample :
  let run := processGutachtenSubmission Example.env Example.srv Example.body
               Example.world in
  ∃ result upload,
    run.1 = Ok result
    ∧ googleDrive result = Succeeded upload
    ∧ pdf result = "/app/temp/Gutachten_DS-2025-123457_1730000123459.pdf"
    ∧ is_Some (files run.2 !! pdf result).
Proof.
  cbv zeta.
  destruct (processGutachtenSubmission _ _ _ _) as [r w'] eqn:Hrun.
  vm_compute in Hrun. injection Hrun as <- <-.
  eexists _, _. split_and!; [reflexivity..|]. vm_compute. eauto.
Qed.

(** C5 (amended).  Once rendering has succeeded, the pipeline returns a
    result that carries the path of the rendered file, and the temporary
    files are exactly those that were there when rendering ended: the
    pipeline does not remove the rendered file, whether the upload succeeds,
    fails or is skipped. *)
Theorem temp_file_persists (env : Env) (srv : Server) (data : raw_record)
    (w w1 w2 : World) (formData : record) (timestamp p : string) :
  prepare env data w = (Ok (formData, timestamp), w1) →
  generatePDFFile env formData w1 = (Ok p, w2) →
  ∃ result w',
    processGutachtenSubmission env srv data w = (Ok result, w')
    ∧ pdf result = p
    ∧ files w' = files w2
    ∧ is_Some (files w' !! p).
Proof.
  intros Hprep Hgen.
  rewrite processGutachtenSubmission_run, Hprep, Hgen.
  destruct (uploadStage_returns env srv formData p w2)
    as (outcome & link & w3 & Hup).
  destruct (notionStep_returns env srv formData link w3)
    as (noutcome & w4 & Hno).
  rewrite Hup, Hno. eexists _, _. split; [done|]. split; [done|].
  pose proof (uploadStage_changes env srv formData p w2) as H3.
  pose proof (notionStep_changes env srv (fun _ => True) formData link
                (fun _ _ => I) (fun _ => I) w3) as H4.
  rewrite Hup in H3. rewrite Hno in H4. simpl in *.
  assert (files w4 = files w2) as Hfiles.
  { rewrite (ch_files _ _ _ _ _ _ H4 eq_refl).
    apply (ch_files _ _ _ _ _ _ H3 eq_refl). }
  split; [done|]. rewrite Hfiles.
  by apply (generatePDFFile_ok env formData w1).
Qed.

Lemma temp_file_persists_witness :
  let run := processGutachtenSubmission Example.env_drive_down Example.srv
               Example.body Example.world in
  ∃ result, run.1 = Ok result ∧ is_Some (files run.2 !! pdf result).
Proof.
  set (env := Example.env_drive_down).
  set (formData := normalized_in env Example.world Example.body).
  set (w1 := (prepare env Example.body Example.world).2).
  destruct (temp_file_persists env Example.srv Example.body Example.world
              w1 (generatePDFFile env formData w1).2 formData
              "2025-01-01T00:00:00.000Z"
              "/app/temp/Gutachten_DS-2025-123457_1730000123459.pdf")
    as (result & w' & Hrun & Hpdf & _ & Hfile); [vm_compute; reflexivity..|].
  cbv zeta. rewrite Hrun. exists result. split; [reflexivity|].
  rewrite Hpdf. exact Hfile.
Defined.

(** ** C2: an upload failure is not fatal *)

Lemma uploadStage_degraded env srv formData p w2 outcome w3 :
  p ≠ "" → degraded_upload env srv formData p w2 outcome w3 →
  uploadStage env srv formData p w2 = (Ok (outcome, None), w3).
Proof.
  intros Hp [(Hd & -> & ->)|(Hd & e & Hup & ->)]; unfold uploadStage;
    rewrite Hd; simpl; [done|].
  destruct (String.eqb_spec p ""); [done|]. simpl.
  unfold try_catch, bind. by rewrite Hup.
Qed.

Lemma resource_no_link formData customerId :
  no_link (buildGutachtenResourceProperties formData None customerId).
Proof.
  unfold no_link, buildGutachtenResourceProperties. simpl.
  destruct (nonempty customerId); by simplify_map_eq.
Qed.

Lemma kontakte_no_link formData props :
  buildKontakteProperties formData = Ok props → no_link props.
Proof.
  unfold no_link, buildKontakteProperties.
  destruct (notionKontakt formData) as [[email phone]|]; [|done].
  intros [= <-]. by simplify_map_eq.
Qed.

Lemma customerStep_returns env srv formData w :
  ∃ customer w', customerStep env srv formData w = (Ok customer, w').
Proof.
  unfold customerStep, try_catch, ret.
  destruct (env_var _) as [db|]; [|eauto].
  match goal with |- context [bind ?m ?k w] => destruct (bind m k w) as [[c|e] w'] end;
    eauto.
Qed.

Lemma resourceStep_returns env srv formData link customer w :
  ∃ entry w', resourceStep env srv formData link customer w = (Ok entry, w').
Proof.
  unfold resourceStep, try_catch, ret.
  destruct (env_var _) as [db|]; [|eauto].
  match goal with |- context [bind ?m ?k w] => destruct (bind m k w) as [[c|e] w'] end;
    eauto.
Qed.

(** The order entry is requested whenever its database is configured. *)
Lemma resourceStep_attempts env srv formData link customer w db :
  env_var (BUSINESS_RESOURCES_DATABASE_ID srv) = Some db →
  NotionCreatePage db (buildGutachtenResourceProperties formData link
                         (entry_id customer))
  ∈ calls (resourceStep env srv formData link customer w).2.
Proof.
  intros Hdb. unfold resourceStep. rewrite Hdb.
  unfold try_catch, bind, notion_create, request, ret.
  destruct (fault _ _ _); simpl; apply elem_of_app; right;
    apply list_elem_of_here.
Qed.

Lemma processNotionIntegration_returns env srv formData link w :
  ∃ customer w1 entry w2,
    customerStep env srv formData w = (Ok customer, w1)
    ∧ resourceStep env srv formData link customer w1 = (Ok entry, w2)
    ∧ processNotionIntegration env srv formData link w
      = (Ok (mkNotionResult customer entry), w2).
Proof.
  destruct (customerStep_returns env srv formData w) as (c & w1 & Hc).
  destruct (resourceStep_returns env srv formData link c w1) as (r & w2 & Hr).
  exists c, w1, r, w2. split_and!; try done.
  unfold processNotionIntegration, try_catch, bind. by rewrite Hc, Hr.
Qed.

(** C2.  When rendering succeeds and the upload fails or the Drive client is
    missing, the pipeline returns a result; its upload stage is the failure
    or the skip; the Notion stage runs as it does without a link; if the
    Notion client and the order database are configured, the order entry is
    requested, without a [Link] property; and no page created by the
    submission has a [Link] property. *)
Theorem upload_failure_is_not_fatal (env : Env) (srv : Server)
    (data : raw_record) (w w1 w2 w3 : World) (formData : record)
    (timestamp p : string) (outcome : Stage DriveResult) :
  prepare env data w = (Ok (formData, timestamp), w1) →
  generatePDFFile env formData w1 = (Ok p, w2) →
  degraded_upload env srv formData p w2 outcome w3 →
  ∃ result w',
    processGutachtenSubmission env srv data w = (Ok result, w')
    ∧ googleDrive result = outcome
    ∧ (∀ payload, outcome ≠ Succeeded payload)
    ∧ notionStep env srv formData None w3 = (Ok (notionStage result), w')
    ∧ (notion srv = true →
       ∀ db, env_var (BUSINESS_RESOURCES_DATABASE_ID srv) = Some db →
             ∃ props, NotionCreatePage db props ∈ calls w'
                      ∧ props !! "Link" = None)
    ∧ (∃ pages, notion_pages w' = notion_pages w3 ++ pages
                ∧ Forall (fun page => pg_props page !! "Link" = None) pages).
Proof.
  intros Hprep Hgen Hdeg.
  destruct (generatePDFFile_ok _ _ _ _ _ Hgen) as [Hp _].
  rewrite processGutachtenSubmission_run, Hprep, Hgen.
  rewrite (uploadStage_degraded _ _ _ _ _ _ _ Hp Hdeg).
  destruct (notionStep_returns env srv formData None w3)
    as (noutcome & w4 & Hno).
  rewrite Hno. eexists _, _. split; [done|]. simpl. split_and!; try done.
  - by destruct Hdeg as [(_ & -> & _)|(_ & e & _ & ->)].
  - intros Hnotion db Hdb. unfold notionStep in Hno. rewrite Hnotion in Hno.
    destruct (processNotionIntegration_returns env srv formData None w3)
      as (c & wc & r & wr & Hc & Hr & Hrun).
    unfold try_catch, bind, ret in Hno. rewrite Hrun in Hno.
    injection Hno as _ <-.
    eexists. split; [|apply resource_no_link].
    pose proof (resourceStep_attempts env srv formData None c wc db Hdb) as H.
    by rewrite Hr in H.
  - pose proof (notionStep_changes env srv no_link formData None
                  (kontakte_no_link formData) (resource_no_link formData) w3)
      as Hch.
    rewrite Hno in Hch. apply Hch.
Qed.

Lemma upload_failure_is_not_fatal_witness :
  let run := processGutachtenSubmission Example.env_drive_down Example.srv
               Example.body Example.world in
  ∃ result, run.1 = Ok result
            ∧ googleDrive result
              = Failed "Google Drive Upload fehlgeschlagen: ECONNREFUSED".
Proof.
  set (env := Example.env_drive_down).
  set (formData := normalized_in env Example.world Example.body).
  set (w1 := (prepare env Example.body Example.world).2).
  set (p := "/app/temp/Gutachten_DS-2025-123457_1730000123459.pdf").
  set (w2 := (generatePDFFile env formData w1).2).
  destruct (upload_failure_is_not_fatal env Example.srv Example.body
              Example.world w1 w2
              (uploadToGoogleDrive env Example.srv formData p w2).2 formData
              "2025-01-01T00:00:00.000Z" p
              (Failed "Google Drive Upload fehlgeschlagen: ECONNREFUSED"))
    as (result & w' & Hrun & Hdrive & _); [vm_compute; reflexivity..| |].
  - right. split; [reflexivity|]. eexists. split; [|reflexivity].
    vm_compute. reflexivity.
  - cbv zeta. rewrite Hrun. exists result. split; [reflexivity|].
    exact Hdrive.
Defined.

(** ** C6: the customer folder is looked up before it is created *)

Lemma length_string_of_list l :
  String.length (String.string_of_list_ascii l) = length l.
Proof. induction l as [|a l IH]; simpl; [done | by rewrite IH]. Qed.

Lemma fresh_id_fresh (used : list string) : fresh_id used ∉ used.
Proof.
  intros Hin.
  assert (∀ x, x ∈ used →
            (String.length x ≤ foldr max 0 (String.length <$> used))%nat) as Hle.
  { clear Hin. induction used as [|y used IH]; intros x Hx.
    - by apply elem_of_nil in Hx.
    - rewrite fmap_cons. cbn [foldr].
      apply elem_of_cons in Hx as [->|Hx]; [lia|].
      specialize (IH x Hx). lia. }
  specialize (Hle _ Hin). unfold fresh_id in Hle.
  rewrite length_string_of_list, length_replicate in Hle. lia.
Qed.

Lemma folder_ids_app name parent l1 l2 :
  folder_ids name parent (l1 ++ l2)
  = folder_ids name parent l1 ++ folder_ids name parent l2.
Proof. unfold folder_ids. by rewrite filter_app, fmap_app. Qed.

Lemma all_folders_app l1 l2 :
  all_folders (l1 ++ l2) = all_folders l1 ++ all_folders l2.
Proof. unfold all_folders. by rewrite filter_app, fmap_app. Qed.

Lemma ids_filter_publish (P : DriveFile → Prop) `{!∀ f, Decision (P f)}
    fileId l :
  (∀ f, P (published fileId f) ↔ P f) →
  df_id <$> filter P (publish fileId l) = df_id <$> filter P l.
Proof.
  intros HP. unfold publish. induction l as [|f l IH]; [done|].
  rewrite fmap_cons. destruct (decide (P f)) as [Hf|Hf].
  - rewrite !filter_cons_True by (done || by apply HP).
    rewrite !fmap_cons, IH. f_equal. unfold published. by case_bool_decide.
  - rewrite !filter_cons_False by (done || by rewrite HP). done.
Qed.

Lemma folder_ids_publish name parent fileId l :
  folder_ids name parent (publish fileId l) = folder_ids name parent l.
Proof.
  apply ids_filter_publish. intros f. unfold published.
  by case_bool_decide.
Qed.

Lemma all_folders_publish fileId l :
  all_folders (publish fileId l) = all_folders l.
Proof.
  apply ids_filter_publish. intros f. unfold published.
  by case_bool_decide.
Qed.

Lemma drive_ids_publish fileId l : df_id <$> publish fileId l = df_id <$> l.
Proof.
  unfold publish. rewrite <- list_fmap_compose. apply list_fmap_ext.
  intros i f _. simpl. unfold published. by case_bool_decide.
Qed.

Lemma folder_ids_folder id name parent driveId public :
  folder_ids name parent
    [mkDriveFile id name parent folder_mime driveId public] = [id].
Proof. unfold folder_ids. by rewrite filter_cons_True. Qed.

Lemma folder_ids_pdf id name parent x y driveId public :
  folder_ids name parent [mkDriveFile id x y pdf_mime driveId public] = [].
Proof.
  unfold folder_ids. rewrite filter_cons_False; [done|].
  by intros (_ & Hm & _).
Qed.

Lemma all_folders_folder id name parent driveId public :
  all_folders [mkDriveFile id name parent folder_mime driveId public] = [id].
Proof. unfold all_folders. by rewrite filter_cons_True. Qed.

Lemma all_folders_pdf id x y driveId public :
  all_folders [mkDriveFile id x y pdf_mime driveId public] = [].
Proof. unfold all_folders. by rewrite filter_cons_False. Qed.

Lemma folder_ids_pdf_file name parent res :
  folder_ids name parent [pdf_file res] = [].
Proof. apply folder_ids_pdf. Qed.

Lemma all_folders_pdf_file res : all_folders [pdf_file res] = [].
Proof. apply all_folders_pdf. Qed.

(** Publishing keeps every file, with its identifier, parent and type. *)
Lemma elem_of_publish fileId f l :
  f ∈ l →
  ∃ f', f' ∈ publish fileId l ∧ df_id f' = df_id f
        ∧ df_parent f' = df_parent f ∧ df_mime f' = df_mime f.
Proof.
  intros Hf. unfold publish.
  eexists. split; [by apply list_elem_of_fmap_2|].
  unfold published. by case_bool_decide.
Qed.

(** How Drive reads the query of the upload. *)
Lemma strip_prefix_app p s : Str.strip_prefix p (p +:+ s) = Some s.
Proof.
  induction p as [|a p IH]; [by destruct s|].
  rewrite app_cons. simpl. by rewrite Ascii.eqb_refl.
Qed.

Lemma read_literal_plain s rest :
  plain s = true → read_literal (s +:+ String Str.quote rest) = Some (s, rest).
Proof.
  unfold plain. induction s as [|a s IH]; [done|].
  rewrite app_cons. simpl.
  intros [[Hq Hs]%negb_true_iff%orb_false_iff
          [Hb Hs']%negb_true_iff%orb_false_iff]%andb_true_iff.
  rewrite Hq, Hb, IH; [done|]. by rewrite Hs, Hs'.
Qed.

(** When the name and the root have neither quote nor backslash, Drive reads
    the query as the search for the folders of that name under the root. *)
Lemma read_folder_query_plain name root :
  plain name = true → plain root = true →
  read_folder_query (folder_query name root) = Some (name, root).
Proof.
  intros Hname Hroot. unfold read_folder_query, folder_query.
  rewrite (strip_prefix_app "name='"). simpl.
  change ("' and mimeType='application/vnd.google-apps.folder' and '" +:+ ?x)
    with (String Str.quote
            (" and mimeType='application/vnd.google-apps.folder' and '" +:+ x)).
  rewrite read_literal_plain by done. simpl.
  rewrite app_nil_l.
  change ("' in parents") with (String Str.quote " in parents").
  by rewrite read_literal_plain.
Qed.

(** What a successful upload did: it found the folder or created it, and
    added the file under it. *)
Lemma upload_ok_inv env srv formData p w res w' root :
  env_var (GOOGLE_DRIVE_ROOT_FOLDER srv) = Some root →
  plain root = true →
  plain (field_to_string (customer_key formData)) = true →
  uploadToGoogleDrive env srv formData p w = (Ok res, w') →
  folderName res = customer_key formData
  ∧ ((∃ rest, folder_ids (field_to_string (customer_key formData)) root
                (drive_files w) = folderId res :: rest
              ∧ fileId res = fresh_id (drive_ids w)
              ∧ drive_files w'
                = publish (fileId res) (drive_files w ++ [pdf_file res]))
     ∨ (∃ name, folder_ids (field_to_string (customer_key formData)) root
                  (drive_files w) = []
                ∧ customer_key formData = Some (JStr name)
                ∧ folderId res = fresh_id (drive_ids w)
                ∧ fileId res = fresh_id (drive_ids w ++ [folderId res])
                ∧ drive_files w'
                  = publish (fileId res)
                      (drive_files w
                       ++ [mkDriveFile (folderId res) name root folder_mime
                                       None false; pdf_file res]))).
Proof.
  intros Hroot Hplain Hname H.
  pose proof (read_folder_query_plain _ _ Hname Hplain) as Hq.
  run_upload H.
  all: split; [done|].
  - right. eexists. split_and!; try done.
    + by rewrite fmap_app.
    + by rewrite <- app_assoc.
  - left. eexists. split_and!; done.
Qed.

(** Whatever the outcome of an upload, it creates no folder when the
    customer's folder exists, and at most one otherwise. *)
Lemma upload_creates_at_most_one env srv formData p w r w' root :
  env_var (GOOGLE_DRIVE_ROOT_FOLDER srv) = Some root →
  plain root = true →
  plain (field_to_string (customer_key formData)) = true →
  uploadToGoogleDrive env srv formData p w = (r, w') →
  (folder_ids (field_to_string (customer_key formData)) root (drive_files w)
   ≠ [] →
   all_folders (drive_files w') = all_folders (drive_files w))
  ∧ (all_folders (drive_files w') = all_folders (drive_files w)
     ∨ ∃ id, all_folders (drive_files w') = all_folders (drive_files w) ++ [id]
             ∧ folder_ids (field_to_string (customer_key formData)) root
                 (drive_files w')
               = folder_ids (field_to_string (customer_key formData)) root
                   (drive_files w) ++ [id]).
Proof.
  intros Hroot Hplain Hname H.
  pose proof (read_folder_query_plain _ _ Hname Hplain) as Hq.
  run_upload H.
  all: rewrite ?all_folders_publish, ?folder_ids_publish, ?all_folders_app,
         ?folder_ids_app, ?all_folders_pdf, ?folder_ids_pdf,
         ?all_folders_folder, ?app_nil_r; simpl.
  all: try (split; [done | by left]).
  all: simpl; rewrite ?folder_ids_folder, ?app_nil_r.
  all: match goal with He : folder_ids _ _ _ = [] |- _ => rewrite ?He end.
  all: split; [done | right; by eexists].
Qed.

(** An upload changes neither the temporary files nor the identifiers that
    Drive holds already. *)
Lemma upload_keeps env srv formData p w r w' :
  uploadToGoogleDrive env srv formData p w = (r, w') →
  files w' = files w ∧ ∀ id, id ∈ drive_ids w → id ∈ drive_ids w'.
Proof.
  intros H. run_upload H.
  all: split; [done|]; intros id Hid.
  all: rewrite ?drive_ids_publish, ?fmap_app, ?elem_of_app; auto.
Qed.

(** When Drive answers, the root folder is there, the customer key is a
    string without quote or backslash and the document has been written, the
    upload returns. *)
Lemma upload_returns env srv formData p w root key :
  env_var (GOOGLE_DRIVE_ROOT_FOLDER srv) = Some root →
  plain root = true →
  drive_answers env →
  customer_key formData = Some (JStr key) → plain key = true →
  root ∈ drive_ids w → is_Some (files w !! p) →
  ∃ res w', uploadToGoogleDrive env srv formData p w = (Ok res, w').
Proof.
  intros Hroot Hplain Hanswers Hkey Hname Hin [doc Hdoc].
  pose proof (read_folder_query_plain _ _ Hname Hplain) as Hq.
  apply list_elem_of_fmap in Hin as (f & Hf & Hin).
  destruct (list_find_elem_of (fun f => df_id f = root) (drive_files w) f)
    as [[i g] Hfind]; [done..|].
  unfold customer_key in Hkey.
  unfold uploadToGoogleDrive. rewrite Hroot, Hkey. cbv beta iota. simpl.
  unfold try_catch, bind, drive_get, drive_list, drive_create_folder,
    drive_create_file, drive_share, request, ret.
  rewrite Hq. cbv beta.
  rewrite Hanswers by done. simpl. rewrite Hfind.
  rewrite Hanswers by done. simpl.
  destruct (folder_ids key root (drive_files w)) as [|id rest]; simpl.
  - rewrite Hanswers by done. simpl.
    rewrite Hanswers by done. simpl. rewrite Hdoc.
    rewrite Hanswers by done. eauto.
  - rewrite Hanswers by done. simpl. rewrite Hdoc.
    rewrite Hanswers by done. eauto.
Qed.

(** Two returning uploads in a row for the same customer key, starting
    without a folder of that name. *)
Lemma two_uploads env srv root formData1 formData2 p1 p2 w res1 w1 res2 w2 :
  env_var (GOOGLE_DRIVE_ROOT_FOLDER srv) = Some root →
  plain root = true →
  customer_key formData1 = customer_key formData2 →
  plain (field_to_string (customer_key formData1)) = true →
  folder_ids (field_to_string (customer_key formData1)) root (drive_files w)
    = [] →
  uploadToGoogleDrive env srv formData1 p1 w = (Ok res1, w1) →
  uploadToGoogleDrive env srv formData2 p2 w1 = (Ok res2, w2) →
  all_folders (drive_files w2) = all_folders (drive_files w) ++ [folderId res1]
  ∧ folder_ids (field_to_string (customer_key formData1)) root
      (drive_files w2) = [folderId res1]
  ∧ folderId res2 = folderId res1
  ∧ fileId res1 ≠ fileId res2
  ∧ ∃ f1 f2,
      f1 ∈ drive_files w2 ∧ f2 ∈ drive_files w2
      ∧ df_id f1 = fileId res1 ∧ df_id f2 = fileId res2
      ∧ df_parent f1 = folderId res1 ∧ df_parent f2 = folderId res1
      ∧ df_mime f1 = pdf_mime ∧ df_mime f2 = pdf_mime.
Proof.
  intros Hroot Hplain Hkey Hname Hnone Hrun1 Hrun2.
  destruct (upload_ok_inv _ _ _ _ _ _ _ _ Hroot Hplain Hname Hrun1)
    as (_ & Hcases1).
  destruct Hcases1 as [(rest & Hids & _)
                      |(n & _ & Hkey1 & Hfolder1 & Hfile1 & Hw1)].
  { by rewrite Hnone in Hids. }
  assert (folder_ids (field_to_string (customer_key formData1)) root
            (drive_files w1) = [folderId res1]) as Hids1.
  { rewrite Hw1. change [?a; ?b] with ([a] ++ [b]).
    rewrite folder_ids_publish, !folder_ids_app, Hnone, folder_ids_pdf_file.
    rewrite Hkey1. simpl. by rewrite folder_ids_folder. }
  assert (all_folders (drive_files w1)
          = all_folders (drive_files w) ++ [folderId res1]) as Hall1.
  { rewrite Hw1. change [?a; ?b] with ([a] ++ [b]).
    by rewrite all_folders_publish, !all_folders_app, all_folders_pdf_file,
      all_folders_folder, app_nil_r. }
  rewrite Hkey in Hname.
  destruct (upload_ok_inv _ _ _ _ _ _ _ _ Hroot Hplain Hname Hrun2)
    as (_ & Hcases2).
  rewrite <- Hkey in Hcases2.
  destruct Hcases2 as [(rest & Hids2 & Hfile2 & Hw2)|(n' & Hids2 & _)];
    [|by rewrite Hids1 in Hids2].
  rewrite Hids1 in Hids2. injection Hids2 as Hsame _.
  assert (fileId res1 ∈ drive_ids w1) as Hin1.
  { unfold drive_ids. rewrite Hw1, drive_ids_publish, !fmap_app.
    rewrite !elem_of_app. right. simpl. apply list_elem_of_further,
      list_elem_of_here. }
  split_and!.
  - by rewrite Hw2, all_folders_publish, all_folders_app, all_folders_pdf_file,
      app_nil_r.
  - by rewrite Hw2, folder_ids_publish, folder_ids_app, folder_ids_pdf_file,
      app_nil_r.
  - done.
  - intros Heq. apply (fresh_id_fresh (drive_ids w1)).
    by rewrite <- Hfile2, <- Heq.
  - destruct (elem_of_publish (fileId res1) (pdf_file res1)
                (drive_files w ++
                 [mkDriveFile (folderId res1) n root folder_mime None false;
                  pdf_file res1]))
      as (g1 & Hg1 & Hid1 & Hparent1 & Hmime1).
    { rewrite !elem_of_app. right. apply list_elem_of_further,
        list_elem_of_here. }
    rewrite <- Hw1 in Hg1.
    destruct (elem_of_publish (fileId res2) g1
                (drive_files w1 ++ [pdf_file res2]))
      as (f1 & Hf1 & Hidf1 & Hparentf1 & Hmimef1).
    { apply elem_of_app. by left. }
    destruct (elem_of_publish (fileId res2) (pdf_file res2)
                (drive_files w1 ++ [pdf_file res2]))
      as (f2 & Hf2 & Hidf2 & Hparentf2 & Hmimef2).
    { apply elem_of_app. right. apply list_elem_of_here. }
    rewrite <- Hw2 in Hf1, Hf2.
    exists f1, f2. simpl in *. split_and!; congruence.
Qed.

(** X18.  The customer folder is looked up before it is created.  Let the
    root folder be configured and let neither its identifier nor the customer
    key contain a quote or a backslash.  Whatever the outcome of an upload,
    it creates no folder if a folder named by the key lies directly under the
    root, and at most one otherwise; when it returns, the uploaded file lies
    under the folder it reports, and that folder is the first of that name
    under the root.  Two returning uploads in a row with the same key,
    starting without such a folder, create exactly one folder between them,
    report the same folder, and leave two different files under it.  And
    when Drive answers every request, the root folder is there, the key is a
    string and both documents have been written, two such uploads in a row do
    return, with that outcome. *)
Theorem folder_is_reused (env : Env) (srv : Server) (root : string) :
  env_var (GOOGLE_DRIVE_ROOT_FOLDER srv) = Some root →
  plain root = true →
  (∀ formData p w r w',
     let name := field_to_string (customer_key formData) in
     plain name = true →
     uploadToGoogleDrive env srv formData p w = (r, w') →
     (folder_ids name root (drive_files w) ≠ [] →
      all_folders (drive_files w') = all_folders (drive_files w))
     ∧ (all_folders (drive_files w') = all_folders (drive_files w)
        ∨ ∃ id,
            all_folders (drive_files w') = all_folders (drive_files w) ++ [id]
            ∧ folder_ids name root (drive_files w')
              = folder_ids name root (drive_files w) ++ [id])
     ∧ (∀ res, r = Ok res →
          head (folder_ids name root (drive_files w')) = Some (folderId res)
          ∧ ∃ f, f ∈ drive_files w' ∧ df_id f = fileId res
                 ∧ df_parent f = folderId res ∧ df_mime f = pdf_mime))
  ∧ (∀ formData1 formData2 p1 p2 w res1 w1 res2 w2,
       customer_key formData1 = customer_key formData2 →
       let name := field_to_string (customer_key formData1) in
       plain name = true →
       folder_ids name root (drive_files w) = [] →
       uploadToGoogleDrive env srv formData1 p1 w = (Ok res1, w1) →
       uploadToGoogleDrive env srv formData2 p2 w1 = (Ok res2, w2) →
       all_folders (drive_files w2)
       = all_folders (drive_files w) ++ [folderId res1]
       ∧ folder_ids name root (drive_files w2) = [folderId res1]
       ∧ folderId res2 = folderId res1
       ∧ fileId res1 ≠ fileId res2
       ∧ ∃ f1 f2,
           f1 ∈ drive_files w2 ∧ f2 ∈ drive_files w2
           ∧ df_id f1 = fileId res1 ∧ df_id f2 = fileId res2
           ∧ df_parent f1 = folderId res1 ∧ df_parent f2 = folderId res1
           ∧ df_mime f1 = pdf_mime ∧ df_mime f2 = pdf_mime)
  ∧ (∀ formData1 formData2 p1 p2 w key,
       drive_answers env →
       customer_key formData1 = Some (JStr key) →
       customer_key formData2 = Some (JStr key) →
       plain key = true →
       root ∈ drive_ids w →
       is_Some (files w !! p1) → is_Some (files w !! p2) →
       folder_ids key root (drive_files w) = [] →
       ∃ res1 w1 res2 w2,
         uploadToGoogleDrive env srv formData1 p1 w = (Ok res1, w1)
         ∧ uploadToGoogleDrive env srv formData2 p2 w1 = (Ok res2, w2)
         ∧ all_folders (drive_files w2)
           = all_folders (drive_files w) ++ [folderId res1]
         ∧ folder_ids key root (drive_files w2) = [folderId res1]
         ∧ folderId res2 = folderId res1
         ∧ fileId res1 ≠ fileId res2
         ∧ ∃ f1 f2,
             f1 ∈ drive_files w2 ∧ f2 ∈ drive_files w2
             ∧ df_id f1 = fileId res1 ∧ df_id f2 = fileId res2
             ∧ df_parent f1 = folderId res1 ∧ df_parent f2 = folderId res1
             ∧ df_mime f1 = pdf_mime ∧ df_mime f2 = pdf_mime).
Proof.
  intros Hroot Hplain. split_and!.
  - intros formData p w r w'. cbv zeta. intros Hname Hrun.
    destruct (upload_creates_at_most_one _ _ _ _ _ _ _ _ Hroot Hplain Hname
                Hrun) as [Hreuse Hmost].
    split_and!; try done.
    intros res ->.
    destruct (upload_ok_inv _ _ _ _ _ _ _ _ Hroot Hplain Hname Hrun)
      as (_ & Hcases).
    destruct Hcases as [(rest & Hids & _ & ->)
                       |(n & Hids & Hkey & _ & _ & ->)].
    + rewrite folder_ids_publish, folder_ids_app.
      rewrite Hids. split; [done|].
      destruct (elem_of_publish (fileId res) (pdf_file res)
                  (drive_files w ++ [pdf_file res]))
        as (f & Hf & Hid & Hparent & Hmime).
      { apply elem_of_app. right. apply list_elem_of_here. }
      by exists f.
    + change [?a; ?b] with ([a] ++ [b]).
      rewrite folder_ids_publish, !folder_ids_app, Hids, folder_ids_pdf_file.
      rewrite Hkey. simpl. rewrite folder_ids_folder. split; [done|].
      destruct (elem_of_publish (fileId res) (pdf_file res)
                  (drive_files w ++
                   [mkDriveFile (folderId res) n root folder_mime None false]
                   ++ [pdf_file res]))
        as (f & Hf & Hid & Hparent & Hmime).
      { rewrite !elem_of_app. right. right. apply list_elem_of_here. }
      by exists f.
  - intros formData1 formData2 p1 p2 w res1 w1 res2 w2 Hkey. cbv zeta.
    intros Hname Hnone Hrun1 Hrun2. by eapply two_uploads.
  - intros formData1 formData2 p1 p2 w key Hanswers Hkey1 Hkey2 Hname Hin
      Hp1 Hp2 Hnone.
    destruct (upload_returns env srv formData1 p1 w root key)
      as (res1 & w1 & Hrun1); try done.
    destruct (upload_keeps _ _ _ _ _ _ _ Hrun1) as [Hfiles Hids].
    destruct (upload_returns env srv formData2 p2 w1 root key)
      as (res2 & w2 & Hrun2); try done.
    { by apply Hids. }
    { by rewrite Hfiles. }
    exists res1, w1, res2, w2. split; [done|]. split; [done|].
    assert (customer_key formData1 = customer_key formData2) as Hkey
      by congruence.
    pose proof (two_uploads env srv root formData1 formData2 p1 p2 w res1 w1
                  res2 w2 Hroot Hplain Hkey) as Htwo.
    rewrite Hkey1 in Htwo. by apply Htwo.
Qed.

Lemma folder_is_reused_witness :
  let formData := Example.formData "DS-2025-000001" in
  let first := uploadToGoogleDrive Example.env Example.srv formData
                 Example.pdf_path Example.world_rendered in
  let second := uploadToGoogleDrive Example.env Example.srv formData
                  Example.pdf_path first.2 in
  ∃ res1 res2,
    first.1 = Ok res1 ∧ second.1 = Ok res2
    ∧ all_folders (drive_files second.2) = ["root"; folderId res1]
    ∧ folderId res2 = folderId res1.
Proof.
  intros formData first second.
  destruct (folder_is_reused Example.env Example.srv "root" eq_refl eq_refl)
    as (_ & _ & Htwice).
  destruct (Htwice formData formData Example.pdf_path Example.pdf_path
              Example.world_rendered "BI-XX 123")
    as (res1 & w1 & res2 & w2 & Hrun1 & Hrun2 & Hall & _ & Hsame & _).
  - intros n c _. reflexivity.
  - by_evaluation.
  - by_evaluation.
  - reflexivity.
  - apply list_elem_of_here.
  - eexists. by_evaluation.
  - eexists. by_evaluation.
  - by_evaluation.
  - exists res1, res2. subst first second. rewrite Hrun1. cbn [fst snd].
    rewrite Hrun2. cbn [fst snd]. rewrite Hall. done.
Defined.

(** C6.  The claim fails for a customer key with a quote: the upload pastes
    the key into the search query as it is, so for the key [a\'b] Drive is
    asked for the folders named [a'b], the folder [a\'b] of the first upload
    is not found by the second, and two uploads in a row with that key, both
    returning, leave two folders of that name under the root, one file in
    each. *)
Theorem quoted_key_makes_two_folders :
  let key := "a\'b" in
  let formData := <["auftraggeber_kennzeichen" := JStr key]>
                    (Example.formData "DS-2025-000001") in
  let first := uploadToGoogleDrive Example.env Example.srv formData
                 Example.pdf_path Example.world_rendered in
  let second := uploadToGoogleDrive Example.env Example.srv formData
                  Example.pdf_path first.2 in
  customer_key formData = Some (JStr key)
  ∧ read_folder_query (folder_query key "root") = Some ("a'b", "root")
  ∧ folder_ids key "root" (drive_files Example.world_rendered) = []
  ∧ ∃ res1 res2,
      first.1 = Ok res1 ∧ second.1 = Ok res2
      ∧ folderId res1 ≠ folderId res2
      ∧ folder_ids key "root" (drive_files second.2)
        = [folderId res1; folderId res2]
      ∧ all_folders (drive_files second.2)
        = ["root"; folderId res1; folderId res2].
Proof.
  cbv zeta. split; [by_evaluation|]. split; [by_evaluation|].
  split; [by_evaluation|].
  eexists _, _. split; [by_evaluation|]. split; [by_evaluation|].
  split; [vm_compute; discriminate|]. split; by_evaluation.
Qed.

(** ** C7: the contact entry is looked up before it is created *)

Lemma contacts_app db k l1 l2 :
  contacts db k (l1 ++ l2) = contacts db k l1 ++ contacts db k l2.
Proof. unfold contacts. by rewrite filter_app, fmap_app. Qed.

Lemma contacts_other db k id db' props :
  props !! "Kennzeichen" = None →
  contacts db k [mkNotionPage id db' props] = [].
Proof.
  intros Hnone. unfold contacts. rewrite filter_cons_False; [done|].
  intros (_ & v & _ & Hv). simpl in Hv. congruence.
Qed.

Lemma contacts_kontakt db v id props :
  props !! "Kennzeichen" = Some (PRichText v) →
  contacts db (Some v) [mkNotionPage id db props] = [id].
Proof.
  intros Hk. unfold contacts. rewrite filter_cons_True; [done|].
  split; [done|]. by exists v.
Qed.

Lemma resource_no_kennzeichen formData link customerId :
  buildGutachtenResourceProperties formData link customerId
    !! "Kennzeichen" = None.
Proof.
  unfold buildGutachtenResourceProperties.
  destruct (nonempty link), (nonempty customerId); by simplify_map_eq.
Qed.

(** The contact properties of a validated record carry its plate
    identifier. *)
Lemma kontakte_of_valid formData :
  validateFormData formData = Ok tt →
  ∃ props v,
    buildKontakteProperties formData = Ok props
    ∧ formData !! "auftraggeber_kennzeichen" = Some v
    ∧ truthy v = true
    ∧ props !! "Kennzeichen" = Some (PRichText v).
Proof.
  intros Hvalid.
  destruct (validateFormData_ok _ Hvalid) as [Hreq (s & Hs)].
  assert (field_missing (formData !! "auftraggeber_kennzeichen") = false)
    as Hk.
  { eapply Forall_forall in Hreq; [done|]. unfold required.
    do 4 apply list_elem_of_further. apply list_elem_of_here. }
  apply field_missing_false in Hk as (v & Hv & Ht & _).
  unfold buildKontakteProperties. rewrite (notionKontakt_string _ _ Hs).
  eexists _, v. split; [done|]. split_and!; try done.
  rewrite lookup_insert_ne by done. rewrite lookup_insert_eq.
  unfold or_empty, js_or. rewrite Hv. simpl. by rewrite Ht.
Qed.

(** The order entry never counts as a contact. *)
Lemma resourceStep_contacts env srv formData link customer w db k :
  contacts db k (notion_pages (resourceStep env srv formData link customer w).2)
  = contacts db k (notion_pages w).
Proof.
  unfold resourceStep, try_catch, bind, notion_create, request, ret.
  repeat (case_match; simplify_eq/=); try done.
  rewrite contacts_app, contacts_other, app_nil_r; [done|].
  apply resource_no_kennzeichen.
Qed.

Section Answering.

(** Notion answers every request. *)
Context (env : Env) (srv : Server) (db : string).
Context (Hanswers : ∀ n c, is_notion_call c = true → fault env n c = None).
Context (Hdb : env_var (KONTAKTE_DATABASE_ID srv) = Some db).

Lemma customerStep_creates formData w props :
  buildKontakteProperties formData = Ok props →
  contacts db (formData !! "auftraggeber_kennzeichen") (notion_pages w) = [] →
  ∃ w', customerStep env srv formData w
        = (Ok (Some (EntryRef (fresh_id (notion_ids w)) created)), w')
        ∧ notion_pages w'
          = notion_pages w
            ++ [mkNotionPage (fresh_id (notion_ids w)) db props].
Proof.
  intros Hprops Hnone. unfold customerStep. rewrite Hdb.
  unfold findCustomerByKennzeichen, try_catch, bind, notion_query,
    notion_create, request, ret, lift.
  rewrite !Hanswers by done. simpl. rewrite Hnone. simpl.
  rewrite Hprops. rewrite !Hanswers by done. simpl. eauto.
Qed.

Lemma customerStep_finds formData w id rest :
  contacts db (formData !! "auftraggeber_kennzeichen") (notion_pages w)
  = id :: rest →
  ∃ w', customerStep env srv formData w
        = (Ok (Some (EntryRef id found_existing)), w')
        ∧ notion_pages w' = notion_pages w.
Proof.
  intros Hsome. unfold customerStep. rewrite Hdb.
  unfold findCustomerByKennzeichen, try_catch, bind, notion_query,
    request, ret.
  rewrite !Hanswers by done. simpl. rewrite Hsome. simpl. eauto.
Qed.

End Answering.

(** C7.  With the contact database configured and Notion answering every
    request, two submissions in a row that passed validation and have the
    same plate identifier, the first one made when no contact has that
    identifier: the first creates the contact ([action: 'created']), the
    second finds that same contact ([action: 'found_existing']), and in the
    end exactly one contact has the identifier. *)
Theorem contact_is_reused (env : Env) (srv : Server) (db : string)
    (formData1 formData2 : record) (link1 link2 : option string)
    (w w1 w2 : World) (r1 r2 : Result NotionResult) :
  env_var (KONTAKTE_DATABASE_ID srv) = Some db →
  (∀ n c, is_notion_call c = true → fault env n c = None) →
  validateFormData formData1 = Ok tt →
  validateFormData formData2 = Ok tt →
  formData1 !! "auftraggeber_kennzeichen"
  = formData2 !! "auftraggeber_kennzeichen" →
  contacts db (formData1 !! "auftraggeber_kennzeichen") (notion_pages w) = [] →
  processNotionIntegration env srv formData1 link1 w = (r1, w1) →
  processNotionIntegration env srv formData2 link2 w1 = (r2, w2) →
  ∃ id res1 res2,
    r1 = Ok res1 ∧ r2 = Ok res2
    ∧ customer res1 = Some (EntryRef id created)
    ∧ customer res2 = Some (EntryRef id found_existing)
    ∧ contacts db (formData1 !! "auftraggeber_kennzeichen") (notion_pages w2)
      = [id].
Proof.
  intros Hdb Hanswers Hvalid1 Hvalid2 Hsame Hnone Hrun1 Hrun2.
  destruct (kontakte_of_valid _ Hvalid1) as (props & v & Hprops & Hv & _ & Hk).
  destruct (processNotionIntegration_returns env srv formData1 link1 w)
    as (c1 & wc1 & e1 & we1 & Hc1 & He1 & Hp1).
  destruct (customerStep_creates env srv db Hanswers Hdb formData1 w props
              Hprops Hnone) as (wc & Hcreate & Hpages).
  rewrite Hcreate in Hc1. injection Hc1 as <- <-.
  rewrite Hp1 in Hrun1. injection Hrun1 as <- <-.
  assert (contacts db (formData1 !! "auftraggeber_kennzeichen")
            (notion_pages we1) = [fresh_id (notion_ids w)]) as Hone.
  { pose proof (resourceStep_contacts env srv formData1 link1
                  (Some (EntryRef (fresh_id (notion_ids w)) created)) wc db
                  (formData1 !! "auftraggeber_kennzeichen")) as Hres.
    rewrite He1 in Hres. simpl in Hres.
    rewrite Hres, Hpages, contacts_app, Hnone, Hv. simpl.
    by apply contacts_kontakt. }
  destruct (processNotionIntegration_returns env srv formData2 link2 we1)
    as (c2 & wc2 & e2 & we2 & Hc2 & He2 & Hp2).
  rewrite Hsame in Hone.
  destruct (customerStep_finds env srv db Hanswers Hdb formData2 we1 _ _ Hone)
    as (wf & Hfind & Hpages2).
  rewrite Hfind in Hc2. injection Hc2 as <- <-.
  rewrite Hp2 in Hrun2. injection Hrun2 as <- <-.
  eexists _, _, _. split_and!; try done.
  pose proof (resourceStep_contacts env srv formData2 link2
                (Some (EntryRef (fresh_id (notion_ids w)) found_existing)) wf
                db (formData2 !! "auftraggeber_kennzeichen")) as Hres.
  rewrite He2 in Hres. simpl in Hres.
  by rewrite Hsame, Hres, Hpages2.
Qed.

Lemma contact_is_reused_witness :
  let formData := Example.formData "DS-2025-000001" in
  let first := processNotionIntegration Example.env Example.srv formData None
                 Example.world in
  let second := processNotionIntegration Example.env Example.srv formData None
                  first.2 in
  ∃ id, customer (ok_or Example.no_entries first.1)
        = Some (EntryRef id created)
        ∧ customer (ok_or Example.no_entries second.1)
          = Some (EntryRef id found_existing).
Proof.
  intros formData first second.
  destruct (contact_is_reused Example.env Example.srv "kontakte"
              formData formData None None Example.world first.2 second.2
              first.1 second.1)
    as (id & res1 & res2 & Hr1 & Hr2 & Hc1 & Hc2 & _);
    [by_evaluation | intros; reflexivity | by_evaluation | by_evaluation
    | reflexivity | by_evaluation | apply surjective_pairing
    | apply surjective_pairing |].
  exists id. rewrite Hr1, Hr2. by split.
Defined.

(** ** C10: a failing lookup counts as "no such contact" *)

Lemma fault_answering_at n env c : fault (answering_at n env) n c = None.
Proof. simpl. by rewrite decide_True. Qed.

Lemma fault_answering_other n env m c :
  m ≠ n → fault (answering_at n env) m c = fault env m c.
Proof. intros Hne. simpl. by rewrite decide_False. Qed.

#[global] Opaque answering_at.

(** The customer step makes at least one request when its database is
    configured. *)
Lemma customerStep_tick env srv db formData w r w' :
  env_var (KONTAKTE_DATABASE_ID srv) = Some db →
  customerStep env srv formData w = (r, w') → (tick w < tick w')%nat.
Proof.
  intros Hdb. unfold customerStep. rewrite Hdb.
  unfold findCustomerByKennzeichen, try_catch, bind, notion_query,
    notion_create, request, ret, lift.
  intros H. repeat (case_match; simplify_eq/=); lia.
Qed.

(** The order step depends on the surroundings only through the answer to
    its one request. *)
Lemma resourceStep_agree env env' srv formData link customer w :
  (∀ c, fault env' (tick w) c = fault env (tick w) c) →
  resourceStep env' srv formData link customer w
  = resourceStep env srv formData link customer w.
Proof.
  intros Hagree. unfold resourceStep, try_catch, bind, notion_create, request.
  destruct (env_var _); [|done]. by rewrite Hagree.
Qed.

(** C10.  When the query for the contact fails, [findCustomerByKennzeichen]
    returns [null] and only the request is logged; the customer step goes on
    to create the contact, and its entry is the outcome of that creation
    alone: the new entry, or the error of the creation; and if no contact has
    the plate identifier, the whole Notion integration ends with the same
    result and in the same world as when the query is answered. *)
Theorem lookup_failure_is_silent (env : Env) (srv : Server) (db : string)
    (formData : record) (link : option string) (w : World) (e : string) :
  let kennzeichen := formData !! "auftraggeber_kennzeichen" in
  let w1 := logged (NotionQuery db kennzeichen) w in
  env_var (KONTAKTE_DATABASE_ID srv) = Some db →
  fault env (tick w) (NotionQuery db kennzeichen) = Some e →
  findCustomerByKennzeichen env db kennzeichen w = (Ok None, w1)
  ∧ (∀ props,
       buildKontakteProperties formData = Ok props →
       customerStep env srv formData w
       = match fault env (S (tick w)) (NotionCreatePage db props) with
         | Some message =>
             (Ok (Some (EntryError message)),
              logged (NotionCreatePage db props) w1)
         | None =>
             (Ok (Some (EntryRef (fresh_id (notion_ids w)) created)),
              mkWorld (S (S (tick w)))
                      (calls w ++ [NotionQuery db kennzeichen;
                                   NotionCreatePage db props])
                      (files w) (drive_files w)
                      (notion_pages w
                       ++ [mkNotionPage (fresh_id (notion_ids w)) db props]))
         end)
  ∧ (contacts db kennzeichen (notion_pages w) = [] →
     processNotionIntegration env srv formData link w
     = processNotionIntegration (answering_at (tick w) env) srv formData link
         w).
Proof.
  intros kennzeichen w1 Hdb Hfault. split_and!.
  - unfold findCustomerByKennzeichen, try_catch, bind, notion_query, request.
    by rewrite Hfault.
  - intros props Hprops. unfold customerStep. rewrite Hdb.
    unfold findCustomerByKennzeichen, try_catch, bind, notion_query,
      notion_create, request, ret, lift.
    fold kennzeichen. rewrite Hfault, Hprops. simpl.
    destruct (fault env (S (tick w)) (NotionCreatePage db props)); [done|].
    unfold logged, notion_ids. simpl. by rewrite <- app_assoc.
  - intros Hnone.
    assert (customerStep (answering_at (tick w) env) srv formData w
            = customerStep env srv formData w) as Hcustomer.
    { unfold customerStep. rewrite Hdb.
      unfold findCustomerByKennzeichen, try_catch, bind, notion_query,
        notion_create, request, ret, lift.
      fold kennzeichen. rewrite Hfault, fault_answering_at.
      cbn [notion_pages logged tick]. rewrite Hnone. cbn [head].
      destruct (buildKontakteProperties formData) as [props|m]; [|done].
      by rewrite fault_answering_other by (simpl; lia). }
    unfold processNotionIntegration, try_catch, bind. rewrite Hcustomer.
    destruct (customerStep env srv formData w) as [[c|m] wc] eqn:Hc; [|done].
    rewrite (resourceStep_agree env (answering_at (tick w) env)); [done|].
    intros call. apply fault_answering_other.
    pose proof (customerStep_tick _ _ _ _ _ _ _ Hdb Hc). lia.
Qed.

Lemma lookup_failure_is_silent_witness :
  let formData := Example.formData "DS-2025-000001" in
  customer (ok_or Example.no_entries
              (processNotionIntegration Example.env_query_down Example.srv
                 formData None Example.world).1)
  = Some (EntryRef "x" created).
Proof.
  intros formData.
  edestruct (lookup_failure_is_silent Example.env_query_down Example.srv
               "kontakte" formData None Example.world "ECONNREFUSED")
    as (_ & _ & Hsame); [reflexivity..|].
  rewrite Hsame by by_evaluation. by_evaluation.
Defined.

(** * Further properties of the pipeline *)

(** ** Normalization and validation *)

Lemma includes_replace_all c d s :
  c ≠ d → Str.includes c (Str.replace_all c d s) = false.
Proof.
  intros Hne. induction s as [|a s IH]; simpl; [done|].
  rewrite IH, orb_false_r.
  destruct (Ascii.eqb_spec a c) as [->|Ha].
  - by destruct (Ascii.eqb_spec d c) as [->|].
  - by destruct (Ascii.eqb_spec a c).
Qed.

Lemma normalizedKey_no_dot key :
  Str.includes Str.dot (normalizedKey key) = false.
Proof.
  destruct (Str.includes Str.dot key) eqn:Hdot.
  - rewrite normalizedKey_dotted by done. by apply includes_replace_all.
  - unfold normalizedKey, mappedKey, object_prototype_key. rewrite Hdot.
    repeat case_match; simplify_eq; try done.
    unfold native_function. rewrite !includes_app, Hdot. done.
Qed.

(** X1.  No key of the normalized record contains a dot, whatever the keys
    of the request body are. *)
Theorem normalized_keys_have_no_dot (year now : N) (data : raw_record)
    (key : string) :
  is_Some (normalizeFormData year now data !! key) →
  Str.includes Str.dot key = false.
Proof.
  intros [v Hv]. destruct (decide (key = "gutachten_nr")) as [->|Hne]; [done|].
  rewrite normalizeFormData_other in Hv by done.
  apply normalizeKeys_inv in Hv as (k & _ & <-). apply normalizedKey_no_dot.
Qed.

Lemma normalized_keys_have_no_dot_witness :
  Str.includes Str.dot "auftraggeber_name" = false.
Proof.
  apply (normalized_keys_have_no_dot 2025 1730000123456 Example.body).
  vm_compute. eauto.
Defined.

(** X2.  The normalized record always has an order number, and it is truthy:
    the one supplied if that is truthy, the synthesized one otherwise. *)
Theorem normalized_order_number (year now : N) (data : raw_record) :
  ∃ v, normalizeFormData year now data !! "gutachten_nr" = Some v
       ∧ truthy v = true
       ∧ (v = JStr (synthetic_nr year now)
          ∨ ∃ key, (key, v) ∈ data ∧ normalizedKey key = "gutachten_nr").
Proof.
  unfold normalizeFormData.
  destruct (own (normalizeKeys data) !! "gutachten_nr") as [v|] eqn:Hv; simpl.
  - destruct (truthy v) eqn:Ht; simpl.
    + exists v. split_and!; try done. right. by apply normalizeKeys_inv.
    + eexists. rewrite lookup_insert_eq. split_and!; try done. by left.
  - eexists. rewrite lookup_insert_eq. split_and!; try done. by left.
Qed.

(** X3.  Validation accepts a record exactly when each of the seven required
    fields is present, truthy and not blank, and the contact is a string; no
    format of the contact is rejected.  Its only errors are the one naming a
    missing required field and the [TypeError] of a contact that is not a
    string. *)
Theorem validation_accepts (data : record) :
  (validateFormData data = Ok tt ↔
   Forall (fun f => field_missing (data !! f) = false) required
   ∧ ∃ s, data !! "auftraggeber_kontakt" = Some (JStr s))
  ∧ (∀ m, validateFormData data = Throw m →
       (∃ f, f ∈ required ∧ field_missing (data !! f) = true
             ∧ m = "Erforderliches Feld fehlt: " +:+ f)
       ∨ (m = "data.auftraggeber_kontakt.split is not a function"
          ∧ ∃ v, data !! "auftraggeber_kontakt" = Some v ∧ truthy v = true
                 ∧ ∀ s, v ≠ JStr s)).
Proof.
  split.
  - split; [apply validateFormData_ok|].
    intros [Hreq (s & Hs)]. unfold validateFormData.
    apply check_required_ok in Hreq. rewrite Hreq.
    unfold check_email. by rewrite Hs.
  - intros m. unfold validateFormData.
    destruct (check_required data required) as [[]|m'] eqn:Hreq.
    + unfold check_email. intros Hm. right.
      destruct (data !! "auftraggeber_kontakt") as [v|]; [|done].
      destruct (truthy v) eqn:Ht; [|by destruct v].
      destruct v as [s|n|b|]; try done.
      all: split; [congruence|].
      all: eexists; split; [reflexivity|]; split; [done|]; intros s; discriminate.
    + intros [= ->]. left.
      destruct (decide (Forall (fun f => field_missing (data !! f) = false)
                               required)) as [Hall|Hnot].
      { apply check_required_ok in Hall. congruence. }
      apply not_Forall_Exists in Hnot; [|apply _].
      apply Exists_exists in Hnot as (f & Hin & Hf).
      destruct (check_required_first data required) as
        (before & g & after & Hsplit & _ & Hg & Hthrow).
      { exists f. split; [done|]. apply not_false_iff_true, Hf. }
      exists g. split_and!; try done.
      * rewrite Hsplit. apply elem_of_app. right. apply list_elem_of_here.
      * congruence.
Qed.

Lemma validation_accepts_witness :
  validateFormData (Example.formData "DS-2025-000001") = Ok tt.
Proof.
  apply (validation_accepts (Example.formData "DS-2025-000001")).
  split; [|by exists "max@test.de / 0151123456"].
  unfold required. repeat constructor.
Defined.

(** ** Rendering *)

Lemma string_app_assoc (s t u : string) : (s +:+ t) +:+ u = s +:+ t +:+ u.
Proof. induction s as [|a s IH]; [done|]. by rewrite !app_cons, IH. Qed.

Lemma split_app c s t :
  Str.split c (s +:+ String c t) = Str.split c s ++ Str.split c t.
Proof.
  induction s as [|a s IH].
  - simpl. by rewrite Ascii.eqb_refl.
  - rewrite app_cons. simpl. rewrite IH.
    destruct (Ascii.eqb a c); [done|].
    pose proof (split_nonempty c s).
    by destruct (Str.split c s).
Qed.

Lemma ends_with_slash_app s a t :
  Path.ends_with_slash (s +:+ String a t) = Path.ends_with_slash (String a t).
Proof.
  induction s as [|b s IH]; [done|].
  rewrite app_cons. cbn [Path.ends_with_slash]. rewrite IH.
  rewrite <- IH. by destruct s.
Qed.

Lemma ends_with_slash_includes s :
  Str.includes Str.slash s = false → Path.ends_with_slash s = false.
Proof.
  induction s as [|a s IH]; [done|]. simpl.
  intros [Ha Hs]%orb_false_iff. destruct s; [done | by apply IH].
Qed.

Lemma join_segments_snoc l s :
  l ≠ [] →
  Path.join_segments (l ++ [s]) = Path.join_segments l +:+ "/" +:+ s.
Proof.
  induction l as [|x l IH]; [done|]. intros _.
  destruct l as [|y l]; [done|].
  change (Path.join_segments ((x :: y :: l) ++ [s]))
    with (x +:+ "/" +:+ Path.join_segments ((y :: l) ++ [s])).
  rewrite IH by done.
  change (Path.join_segments (x :: y :: l))
    with (x +:+ "/" +:+ Path.join_segments (y :: l)).
  by rewrite !string_app_assoc.
Qed.

Lemma resolve_plain allowAboveRoot res s :
  plain_segment s → Path.resolve allowAboveRoot res s = s :: res.
Proof.
  intros (_ & H0 & H1 & H2). unfold Path.resolve.
  destruct (String.eqb_spec s ""); [done|].
  destruct (String.eqb_spec s "."); [done|].
  by destruct (String.eqb_spec s "..").
Qed.

Lemma normalizeString_child d s allowAboveRoot :
  plain_segment s →
  Path.normalizeString d allowAboveRoot ≠ "" →
  Path.normalizeString (d +:+ "/" +:+ s) allowAboveRoot
  = Path.normalizeString d allowAboveRoot +:+ "/" +:+ s.
Proof.
  intros Hs Hd. unfold Path.normalizeString in *.
  change ("/" +:+ s) with (String Str.slash s).
  rewrite split_app, foldl_app.
  rewrite (split_no_sep _ s) by apply Hs. simpl.
  rewrite resolve_plain by done.
  rewrite reverse_cons. apply join_segments_snoc.
  intros Hnil. by rewrite Hnil in Hd.
Qed.

(** Under a directory in normal form, a plain segment is appended as it
    is, and the result is such a directory again. *)
Lemma join_child d s :
  proper_directory d → plain_segment s →
  Path.join [d; s] = d +:+ "/" +:+ s ∧ proper_directory (d +:+ "/" +:+ s).
Proof.
  intros (Habs & Hend & Hnorm) Hs.
  assert (d = "/" +:+ Path.normalizeString d false
          ∧ Path.normalizeString d false ≠ "") as [Hd Hne].
  { revert Hnorm. unfold Path.normalize. cbv zeta.
    rewrite Habs, Hend. simpl.
    destruct (String.eqb_spec d "") as [->|_]; [done|].
    destruct (String.eqb_spec (Path.normalizeString d false) "") as [He|He].
    - intros <-. done.
    - intros Heq. by rewrite Heq at 1. }
  assert (Path.normalize (d +:+ "/" +:+ s) = d +:+ "/" +:+ s) as Hchild.
  { unfold Path.normalize. cbv zeta.
    assert (Path.starts_with_slash (d +:+ "/" +:+ s) = true) as ->.
    { destruct d; [done|]. by rewrite app_cons. }
    assert (Path.ends_with_slash (d +:+ "/" +:+ s) = false) as ->.
    { change ("/" +:+ s) with (String Str.slash s).
      rewrite ends_with_slash_app.
      destruct Hs as (Hs & Hs0 & _). destruct s as [|a s]; [done|].
      cbn [Path.ends_with_slash]. by apply (ends_with_slash_includes (String a s)). }
    simpl. rewrite normalizeString_child by done.
    destruct (String.eqb_spec (d +:+ "/" +:+ s) "") as [He|_].
    { destruct d; [done|]. by rewrite app_cons in He. }
    destruct (String.eqb_spec (Path.normalizeString d false +:+ "/" +:+ s) "")
      as [He|_].
    { destruct (Path.normalizeString d false); [done|].
      by rewrite app_cons in He. }
    rewrite Hd at 2. by rewrite string_app_assoc. }
  split.
  - unfold Path.join.
    assert (d ≠ "") as Hd0 by (by destruct d).
    rewrite filter_cons_True by done.
    rewrite filter_cons_True by apply Hs.
    rewrite filter_nil. exact Hchild.
  - split_and!; [|..|done].
    + destruct d; [done|]. by rewrite app_cons.
    + change ("/" +:+ s) with (String Str.slash s).
      rewrite ends_with_slash_app.
      destruct Hs as (Hs & Hs0 & _). destruct s as [|a s]; [done|].
      cbn [Path.ends_with_slash]. by apply (ends_with_slash_includes (String a s)).
Qed.

Lemma digits_no_slash n : Str.includes Str.slash (digits n) = false.
Proof.
  induction (N.lt_wf_0 n) as [n _ IH].
  destruct (decide (n = 0)%N) as [->|Hn]; [done|].
  rewrite digits_step, includes_app by lia.
  rewrite IH by (apply N.div_lt; lia). simpl.
  assert (n `mod` 10 < 10)%N as Hd by (apply N.mod_lt; lia).
  revert Hd. generalize (n `mod` 10)%N. intros d Hd.
  assert (d = 0 ∨ d = 1 ∨ d = 2 ∨ d = 3 ∨ d = 4 ∨ d = 5 ∨ d = 6 ∨ d = 7
          ∨ d = 8 ∨ d = 9)%N as Hcases by lia.
  repeat (destruct Hcases as [->|Hcases]; [reflexivity|]). by subst.
Qed.

Lemma pretty_no_slash (n : N) : Str.includes Str.slash (pretty n) = false.
Proof.
  destruct (decide (n = 0)%N) as [->|Hn]; [done|].
  rewrite pretty_N_digits by lia. apply digits_no_slash.
Qed.

(** The name of the temporary file is one segment of a path when the order
    number has no slash. *)
Lemma fileName_plain nr (now : N) :
  Str.includes Str.slash nr = false →
  plain_segment ("Gutachten_" +:+ nr +:+ "_" +:+ pretty now +:+ ".pdf").
Proof.
  intros Hnr. split; [|by rewrite !app_cons].
  by rewrite !includes_app, Hnr, pretty_no_slash.
Qed.

(** X4.  For a record that passed validation, drawing the document never
    throws: [generatePDFFile] requests exactly one file write, at the path
    joined from the directory of the server, [temp] and the file name made
    of the order number and the clock, and it fails exactly when that write
    fails, with the error of the write.  When the order number has no slash
    and the server's directory is an absolute path in normal form, that path
    is [<dirname>/temp/Gutachten_<order number>_<clock>.pdf]. *)
Theorem rendering_fails_only_at_write (env : Env) (formData : record)
    (w : World) :
  validateFormData formData = Ok tt →
  let now := now_at env (tick w) in
  let nr := field_to_string (formData !! "gutachten_nr") in
  let p := pdf_path_of env formData now in
  (∃ w', generatePDFFile env formData w
         = (match fault env (S (tick w)) (WritePdf p) with
            | Some e => Throw e
            | None => Ok p
            end, w')
         ∧ calls w' = calls w ++ [WritePdf p])
  ∧ (proper_directory (dirname env) →
     Str.includes Str.slash nr = false →
     p = dirname env +:+ "/temp/Gutachten_" +:+ nr +:+ "_" +:+ pretty now
         +:+ ".pdf").
Proof.
  intros Hvalid now nr p. split.
  - destruct (validateFormData_ok _ Hvalid) as [_ (s & Hs)].
    unfold generatePDFFile, bind, read_clock, lift, fs_write, request, ret,
      drawDocument.
    rewrite (pdfKontakt_string _ _ Hs).
    destruct (orderSection formData 190) as [order y0].
    destruct (clientSection formData _ _ y0) as [client y1].
    destruct (vehicleSection formData y1) as [vehicle y2].
    destruct (accidentSection (layout env) formData y2) as [accident y3].
    simpl. fold (pdf_path_of env formData (now_at env (tick w))). fold now p.
    destruct (fault env (S (tick w)) (WritePdf p)); eauto.
  - intros Hdir Hnr. subst p. unfold pdf_path_of. fold nr.
    destruct (join_child (dirname env) "temp" Hdir) as [-> Htemp];
      [by repeat split|].
    destruct (join_child (dirname env +:+ "/" +:+ "temp")
                ("Gutachten_" +:+ nr +:+ "_" +:+ pretty now +:+ ".pdf")
                Htemp (fileName_plain nr now Hnr)) as [-> _].
    rewrite !string_app_assoc. f_equal.
Qed.

Lemma rendering_fails_only_at_write_witness :
  let formData := Example.formData "DS-2025-000001" in
  (generatePDFFile Example.env_disk_full formData Example.world).1
  = Throw "ENOSPC: no space left on device"
  ∧ pdf_path_of Example.env_disk_full formData 1730000123456
    = "/app/temp/Gutachten_DS-2025-000001_1730000123456.pdf".
Proof.
  intros formData.
  destruct (rendering_fails_only_at_write Example.env_disk_full formData
              Example.world) as ((w' & Hrun & _) & Hpath); [by_evaluation|].
  split.
  - rewrite Hrun. reflexivity.
  - apply Hpath; [|reflexivity]. repeat split.
Defined.
















Lemma without_images_app l1 l2 :
  without_images (l1 ++ l2) = without_images l1 ++ without_images l2.
Proof. apply filter_app. Qed.

Lemma without_images_signature lay formData y :
  without_images (signatureImage lay formData y) = [].
Proof. unfold signatureImage. by repeat case_match. Qed.

Lemma without_images_closing lay lay' formData y :
  today lay' = today lay →
  without_images (closingSection lay' formData y)
  = without_images (closingSection lay formData y).
Proof.
  intros Htoday. unfold closingSection. destruct (700 <? y);
    rewrite !without_images_app, !without_images_signature, Htoday; done.
Qed.

(** X6.  Whether the signature image can be drawn never decides whether the
    document is drawn: under two layouts that differ only in the images
    PDFKit accepts, drawing succeeds for both or throws the same error for
    both, and the drawing calls other than the image are the same. *)
Theorem signature_never_aborts (lay lay' : Layout) (formData : record) :
  today lay' = today lay →
  heightOfString lay' = heightOfString lay →
  match drawDocument lay formData, drawDocument lay' formData with
  | Ok ops, Ok ops' => without_images ops' = without_images ops
  | Throw m, Throw m' => m' = m
  | _, _ => False
  end.
Proof.
  intros Htoday Hheight. unfold drawDocument.
  destruct (orderSection formData 190) as [order y0].
  destruct (pdfKontakt formData) as [[email phone]|]; [|done].
  destruct (clientSection formData email phone y0) as [client y1].
  destruct (vehicleSection formData y1) as [vehicle y2].
  assert (accidentSection lay' formData y2 = accidentSection lay formData y2)
    as ->.
  { unfold accidentSection. by rewrite Hheight. }
  destruct (accidentSection lay formData y2) as [accident y3].
  rewrite !without_images_app. by rewrite (without_images_closing lay lay').
Qed.

Lemma signature_never_aborts_witness :
  let formData := <["unterschrift" := JStr "data:image/png;base64,AAAA"]>
                    (Example.formData "DS-2025-000001") in
  without_images (ok_or [] (drawDocument
                    (mkLayout "01.01.2025" (fun _ => 30) (fun _ => false))
                    formData))
  = without_images (ok_or [] (drawDocument Example.lay formData)).
Proof.
  intros formData.
  pose proof (signature_never_aborts Example.lay
                (mkLayout "01.01.2025" (fun _ => 30) (fun _ => false))
                formData eq_refl eq_refl) as H.
  destruct (drawDocument Example.lay formData),
           (drawDocument (mkLayout _ _ _) formData); done.
Defined.

(** ** The upload *)

(** X7.  Every error of [uploadToGoogleDrive] is wrapped: its message is
    ["Google Drive Upload fehlgeschlagen: "] followed by the message of the
    cause.  Without a configured root folder the cause is
    ["GOOGLE_DRIVE_ROOT_FOLDER not configured"], and no request is made. *)
Theorem upload_errors_are_wrapped (env : Env) (srv : Server)
    (formData : record) (p : string) (w w' : World) (m : string) :
  uploadToGoogleDrive env srv formData p w = (Throw m, w') →
  ∃ cause,
    m = "Google Drive Upload fehlgeschlagen: " +:+ cause
    ∧ (env_var (GOOGLE_DRIVE_ROOT_FOLDER srv) = None →
       cause = "GOOGLE_DRIVE_ROOT_FOLDER not configured" ∧ w' = w).
Proof.
  unfold uploadToGoogleDrive, try_catch, throw.
  match goal with
  | |- context [match ?m w with _ => _ end] => destruct (m w) as [[r|e] w1] eqn:Hrun
  end; [done|].
  intros [= <- <-]. exists e. split; [done|].
  intros Hroot. rewrite Hroot in Hrun. unfold throw in Hrun.
  by injection Hrun as <- <-.
Qed.

Lemma upload_errors_are_wrapped_witness :
  (uploadToGoogleDrive Example.env
     (mkServer true true None (Some "kontakte") (Some "resources"))
     (Example.formData "DS-2025-000001") Example.pdf_path
     Example.world_rendered).2 = Example.world_rendered.
Proof.
  set (srv := mkServer true true None (Some "kontakte") (Some "resources")).
  set (run := uploadToGoogleDrive Example.env srv
                (Example.formData "DS-2025-000001") Example.pdf_path
                Example.world_rendered).
  destruct (upload_errors_are_wrapped Example.env srv
              (Example.formData "DS-2025-000001") Example.pdf_path
              Example.world_rendered run.2
              "Google Drive Upload fehlgeschlagen: GOOGLE_DRIVE_ROOT_FOLDER not configured")
    as (cause & _ & Hnone); [by_evaluation|].
  by destruct (Hnone eq_refl) as [_ ->].
Defined.

Lemma publish_fresh fileId l :
  fileId ∉ df_id <$> l → publish fileId l = l.
Proof.
  intros Hfresh. unfold publish. induction l as [|f l IH]; [done|].
  rewrite fmap_cons in *. apply not_elem_of_cons in Hfresh as [Hf Hl].
  rewrite IH by done. f_equal. unfold published. by rewrite bool_decide_false.
Qed.

Lemma publish_app fileId l1 l2 :
  publish fileId (l1 ++ l2) = publish fileId l1 ++ publish fileId l2.
Proof. unfold publish. apply fmap_app. Qed.

Lemma fresh_id_not_in_prefix (l : list DriveFile) (extra : list string) :
  fresh_id ((df_id <$> l) ++ extra) ∉ df_id <$> l.
Proof.
  intros Hin. apply (fresh_id_fresh ((df_id <$> l) ++ extra)).
  apply elem_of_app. by left.
Qed.

(** X8.  When an upload returns, the result names the file
    [Gutachten_<order number>.pdf], its link is
    [https://drive.google.com/file/d/<file id>/view], the file identifier is
    new, and Drive holds a file of that identifier and name under the
    reported folder that anyone can read. *)
Theorem upload_result (env : Env) (srv : Server) (formData : record)
    (p : string) (w w' : World) (res : DriveResult) :
  uploadToGoogleDrive env srv formData p w = (Ok res, w') →
  fileName res
  = "Gutachten_" +:+ field_to_string (formData !! "gutachten_nr") +:+ ".pdf"
  ∧ fileLink res
    = "https://drive.google.com/file/d/" +:+ fileId res +:+ "/view"
  ∧ fileId res ∉ drive_ids w
  ∧ is_Some (files w !! p)
  ∧ ∃ f, f ∈ drive_files w'
         ∧ df_id f = fileId res ∧ df_name f = fileName res
         ∧ df_parent f = folderId res ∧ df_mime f = pdf_mime
         ∧ df_public f = true.
Proof.
  intros H. run_upload H.
  all: split; [done|]; split; [done|].
  all: split;
    [first [apply fresh_id_fresh
           | rewrite fmap_app; apply fresh_id_not_in_prefix]|].
  all: split; [eauto|].
  all: eexists; split;
    [unfold publish; apply list_elem_of_fmap_2, elem_of_app; right;
     apply list_elem_of_here|].
  all: unfold published; simpl; by rewrite bool_decide_true.
Qed.

Lemma upload_result_witness :
  fileLink (ok_or Example.no_upload
              (uploadToGoogleDrive Example.env Example.srv
                 (Example.formData "DS-2025-000001") Example.pdf_path
                 Example.world_rendered).1)
  = "https://drive.google.com/file/d/xxxxxx/view".
Proof.
  set (run := uploadToGoogleDrive Example.env Example.srv
                (Example.formData "DS-2025-000001") Example.pdf_path
                Example.world_rendered).
  destruct (upload_result Example.env Example.srv
              (Example.formData "DS-2025-000001") Example.pdf_path
              Example.world_rendered run.2 (ok_or Example.no_upload run.1))
    as (_ & Hlink & _); [by_evaluation|].
  rewrite Hlink. by_evaluation.
Defined.

(** X9.  An upload never changes or removes what Drive already holds: after
    any run, returning or throwing, the files of before are there unchanged
    and in the same order, followed by at most two new ones (the folder and
    the document). *)
Theorem upload_keeps_existing_files (env : Env) (srv : Server)
    (formData : record) (p : string) (w w' : World)
    (r : Result DriveResult) :
  uploadToGoogleDrive env srv formData p w = (r, w') →
  ∃ new, drive_files w' = drive_files w ++ new ∧ (length new ≤ 2)%nat.
Proof.
  intros H. run_upload H.
  all: try (exists []; rewrite app_nil_r; split; [done | simpl; lia]).
  all: try (eexists [_]; split; [reflexivity | simpl; lia]).
  all: try (eexists [_; _]; split; [by rewrite <- app_assoc | simpl; lia]).
  all: rewrite !publish_app, (publish_fresh _ (drive_files w))
         by first [apply fresh_id_fresh
                  | rewrite fmap_app; apply fresh_id_not_in_prefix].
  all: rewrite <- ?app_assoc.
  all: eexists; split; [reflexivity | simpl; lia].
Qed.

Lemma upload_keeps_existing_files_witness :
  ∃ new,
    drive_files (uploadToGoogleDrive Example.env_drive_down Example.srv
                   (Example.formData "DS-2025-000001") Example.pdf_path
                   Example.world_rendered).2
    = drive_files Example.world_rendered ++ new.
Proof.
  set (run := uploadToGoogleDrive Example.env_drive_down Example.srv
                (Example.formData "DS-2025-000001") Example.pdf_path
                Example.world_rendered).
  destruct (upload_keeps_existing_files Example.env_drive_down Example.srv
              (Example.formData "DS-2025-000001") Example.pdf_path
              Example.world_rendered run.2 run.1) as (new & Hnew & _);
    [apply surjective_pairing|].
  by exists new.
Defined.

(** ** Record-keeping *)

Lemma customerStep_entry env srv formData w customer w' :
  customerStep env srv formData w = (Ok customer, w') →
  (is_Some customer ↔ is_Some (env_var (KONTAKTE_DATABASE_ID srv))).
Proof.
  unfold customerStep, findCustomerByKennzeichen, try_catch, bind,
    notion_query, notion_create, request, ret, lift.
  intros H. repeat (case_match; simplify_eq/=); split; eauto;
    by intros [? [=]].
Qed.

Lemma resourceStep_entry env srv formData link customer w entry w' :
  resourceStep env srv formData link customer w = (Ok entry, w') →
  (is_Some entry ↔ is_Some (env_var (BUSINESS_RESOURCES_DATABASE_ID srv))).
Proof.
  unfold resourceStep, try_catch, bind, notion_create, request, ret.
  intros H. repeat (case_match; simplify_eq/=); split; eauto;
    by intros [? [=]].
Qed.

(** X10.  [processNotionIntegration] never throws: a failing lookup or
    creation is recorded in the entry it concerns.  The result has a customer
    entry exactly when the contact database is configured and an order entry
    exactly when the order database is; so the Notion stage of the pipeline
    is a payload or a skip, never an error. *)
Theorem notion_integration_never_throws (env : Env) (srv : Server)
    (formData : record) (link : option string) (w : World) :
  (∃ res w',
     processNotionIntegration env srv formData link w = (Ok res, w')
     ∧ (is_Some (customer res)
        ↔ is_Some (env_var (KONTAKTE_DATABASE_ID srv)))
     ∧ (is_Some (businessResource res)
        ↔ is_Some (env_var (BUSINESS_RESOURCES_DATABASE_ID srv))))
  ∧ match (notionStep env srv formData link w).1 with
    | Ok (Succeeded _) => notion srv = true
    | Ok (Skipped _) => notion srv = false
    | Ok (Failed _) | Throw _ => False
    end.
Proof.
  destruct (processNotionIntegration_returns env srv formData link w)
    as (c & wc & r & wr & Hc & Hr & Hrun).
  split.
  - exists (mkNotionResult c r), wr. split; [done|]. simpl. split.
    + by eapply customerStep_entry.
    + by eapply resourceStep_entry.
  - unfold notionStep, try_catch, bind, ret.
    destruct (notion srv); [|done]. by rewrite Hrun.
Qed.

(** X11.  A run of [processNotionIntegration] never changes or removes a
    page: the pages of before are there unchanged, followed by at most two
    new ones, each in the contact database or in the order database. *)
Theorem notion_pages_are_only_added (env : Env) (srv : Server)
    (formData : record) (link : option string) (w w' : World)
    (r : Result NotionResult) :
  processNotionIntegration env srv formData link w = (r, w') →
  ∃ new,
    notion_pages w' = notion_pages w ++ new
    ∧ (length new ≤ 2)%nat
    ∧ Forall (fun page =>
                env_var (KONTAKTE_DATABASE_ID srv) = Some (pg_database page)
                ∨ env_var (BUSINESS_RESOURCES_DATABASE_ID srv)
                  = Some (pg_database page)) new.
Proof.
  unfold processNotionIntegration, customerStep, resourceStep,
    findCustomerByKennzeichen, try_catch, bind, notion_query, notion_create,
    request, ret, lift, throw.
  intros H. repeat (case_match; simplify_eq/=).
  all: try (exists []; rewrite app_nil_r; split; [done|];
            split; [simpl; lia | constructor]).
  all: rewrite <- ?app_assoc; eexists; split; [reflexivity|].
  all: split; [simpl; lia|].
  all: repeat (apply Forall_cons; split; [simpl; auto|]); constructor.
Qed.

Lemma notion_pages_are_only_added_witness :
  ∃ new,
    notion_pages (processNotionIntegration Example.env Example.srv
                    (Example.formData "DS-2025-000001") None Example.world).2
    = notion_pages Example.world ++ new.
Proof.
  set (run := processNotionIntegration Example.env Example.srv
                (Example.formData "DS-2025-000001") None Example.world).
  destruct (notion_pages_are_only_added Example.env Example.srv
              (Example.formData "DS-2025-000001") None Example.world run.2
              run.1) as (new & Hnew & _); [apply surjective_pairing|].
  by exists new.
Defined.

Lemma resource_props_lookup formData link customerId :
  let props := buildGutachtenResourceProperties formData link customerId in
  props !! "Link" = PUrl <$> nonempty link
  ∧ props !! "Kontakte" = (fun id => PRelation [id]) <$> nonempty customerId
  ∧ props !! "Name"
    = Some (PTitle (JStr (
        "Gutachten "
        +:+ field_to_string (formData !! "auftraggeber_kennzeichen")
        +:+ " - " +:+ field_to_string (formData !! "auftraggeber_name")
        +:+ " (" +:+ field_to_string (formData !! "gutachten_nr") +:+ ")")))
  ∧ props !! "Type" = Some (PSelect "Auftrag Gutachten").
Proof.
  unfold buildGutachtenResourceProperties.
  destruct (nonempty link), (nonempty customerId); simpl;
    split_and!; by simplify_map_eq.
Qed.

(** X12.  Whenever the order database is configured, the order entry is
    requested, titled ["Gutachten <plate> - <name> (<order number>)"] and
    typed ["Auftrag Gutachten"]; it is related to the contact exactly when
    the customer entry of the result carries a non-empty identifier, that is,
    not when the contact step failed or was not configured. *)
Theorem order_entry_links_contact (env : Env) (srv : Server)
    (formData : record) (link : option string) (w w' : World)
    (res : NotionResult) (db : string) :
  processNotionIntegration env srv formData link w = (Ok res, w') →
  env_var (BUSINESS_RESOURCES_DATABASE_ID srv) = Some db →
  ∃ props,
    NotionCreatePage db props ∈ calls w'
    ∧ props !! "Kontakte"
      = (fun id => PRelation [id]) <$> nonempty (entry_id (customer res))
    ∧ props !! "Name"
      = Some (PTitle (JStr (
          "Gutachten "
          +:+ field_to_string (formData !! "auftraggeber_kennzeichen")
          +:+ " - " +:+ field_to_string (formData !! "auftraggeber_name")
          +:+ " (" +:+ field_to_string (formData !! "gutachten_nr") +:+ ")")))
    ∧ props !! "Type" = Some (PSelect "Auftrag Gutachten").
Proof.
  intros Hrun Hdb.
  destruct (processNotionIntegration_returns env srv formData link w)
    as (c & wc & r & wr & Hc & Hr & Hrun').
  rewrite Hrun' in Hrun. injection Hrun as <- <-.
  pose proof (resourceStep_attempts env srv formData link c wc db Hdb) as Hin.
  rewrite Hr in Hin.
  destruct (resource_props_lookup formData link (entry_id c))
    as (_ & Hkontakte & Hname & Htype).
  eexists. split_and!; done.
Qed.

Lemma order_entry_links_contact_witness :
  ∃ props,
    NotionCreatePage "resources" props
    ∈ calls (processNotionIntegration Example.env Example.srv
               (Example.formData "DS-2025-000001") None Example.world).2
    ∧ props !! "Kontakte" = Some (PRelation ["x"]).
Proof.
  set (run := processNotionIntegration Example.env Example.srv
                (Example.formData "DS-2025-000001") None Example.world).
  destruct (order_entry_links_contact Example.env Example.srv
              (Example.formData "DS-2025-000001") None Example.world run.2
              (ok_or Example.no_entries run.1) "resources")
    as (props & Hin & Hkontakte & _); [by_evaluation | reflexivity |].
  exists props. split; [done|]. rewrite Hkontakte. by_evaluation.
Defined.

(** ** The pipeline as a whole *)

Lemma prepare_inv env data w r w1 :
  prepare env data w = (r, w1) →
  (∃ m, r = Throw m ∧ validateFormData (normalized_in env w data) = Throw m)
  ∨ (∃ timestamp, r = Ok (normalized_in env w data, timestamp)
                  ∧ validateFormData (normalized_in env w data) = Ok tt).
Proof.
  destruct (normalizeStep_run env data w) as (w0 & Hn & _).
  unfold prepare, bind, lift, read_clock, ret. rewrite Hn.
  destruct (validateFormData (normalized_in env w data)) as [[]|m];
    intros [= <- <-]; eauto.
Qed.

Lemma check_required_message data fields m :
  check_required data fields = Throw m →
  ∃ f, m = "Erforderliches Feld fehlt: " +:+ f.
Proof.
  induction fields as [|f fields IH]; simpl; [done|].
  destruct (field_missing (data !! f)); [|done]. intros [= <-]. eauto.
Qed.

(** The messages of validation are neither empty nor the fallback text of
    the route. *)
Lemma validateFormData_message data m :
  validateFormData data = Throw m →
  m ≠ "" ∧ m ≠ "Ein Fehler ist aufgetreten".
Proof.
  unfold validateFormData, check_email.
  destruct (check_required data required) as [[]|m'] eqn:Hreq.
  - repeat case_match; try done; by intros [= <-].
  - intros [= <-]. apply check_required_message in Hreq as (f & ->).
    rewrite !app_cons. by split.
Qed.

(** What the pipeline can throw. *)
Lemma pipeline_throw_inv env srv data w m w' :
  processGutachtenSubmission env srv data w = (Throw m, w') →
  validateFormData (normalized_in env w data) = Throw m
  ∨ (validateFormData (normalized_in env w data) = Ok tt
     ∧ m = "PDF-Generierung fehlgeschlagen").
Proof.
  rewrite processGutachtenSubmission_run.
  destruct (prepare env data w) as [r w1] eqn:Hprep.
  apply prepare_inv in Hprep as [(m' & -> & Hm)|(ts & -> & Hvalid)].
  { intros [= <- <-]. by left. }
  destruct (generatePDFFile env _ w1) as [[p|e] w2].
  - destruct (uploadStage_returns env srv (normalized_in env w data) p w2)
      as (outcome & link & w3 & ->).
    by destruct (notionStep_returns env srv (normalized_in env w data) link w3)
      as (noutcome & w4 & ->).
  - intros [= <- <-]. by right.
Qed.

(** X13.  The pipeline throws only for a record that fails validation, with
    the error of the validation, or when rendering fails, with
    ["PDF-Generierung fehlgeschlagen"]: no failure of Google Drive or Notion
    makes a submission fail. *)
Theorem pipeline_throws_only (env : Env) (srv : Server) (data : raw_record)
    (w w' : World) (m : string) :
  processGutachtenSubmission env srv data w = (Throw m, w') →
  validateFormData (normalized_in env w data) = Throw m
  ∨ (validateFormData (normalized_in env w data) = Ok tt
     ∧ m = "PDF-Generierung fehlgeschlagen").
Proof. apply pipeline_throw_inv. Qed.

Lemma pipeline_throws_only_witness :
  let formData :=
    normalized_in Example.env_disk_full Example.world Example.body in
  validateFormData formData = Throw "PDF-Generierung fehlgeschlagen"
  ∨ (validateFormData formData = Ok tt
     ∧ "PDF-Generierung fehlgeschlagen" = "PDF-Generierung fehlgeschlagen").
Proof.
  cbv zeta.
  apply (pipeline_throws_only Example.env_disk_full Example.srv Example.body
           Example.world
           (processGutachtenSubmission Example.env_disk_full Example.srv
              Example.body Example.world).2).
  by_evaluation.
Defined.

Lemma upload_link env srv formData p w up w' :
  uploadToGoogleDrive env srv formData p w = (Ok up, w') →
  nonempty (Some (fileLink up)) = Some (fileLink up).
Proof. intros H. run_upload H; done. Qed.

Lemma uploadStage_inv env srv formData p w outcome link w' :
  uploadStage env srv formData p w = (Ok (outcome, link), w') →
  match outcome with
  | Succeeded up =>
      drive srv = true ∧ link = Some (fileLink up)
      ∧ uploadToGoogleDrive env srv formData p w = (Ok up, w')
  | _ => link = None
  end.
Proof.
  unfold uploadStage, try_catch, bind, ret.
  destruct (drive srv); simpl; [|by intros [= <- <- <-]].
  destruct (negb _); [|by intros [= <- <- <-]].
  destruct (uploadToGoogleDrive env srv formData p w) as [[up|e] w1];
    by intros [= <- <- <-].
Qed.

(** X14.  When a submission returns with a successful upload and the Notion
    client and the order database are configured, the order entry is
    requested with the [Link] property set to the link of the uploaded
    file. *)
Theorem link_reaches_order_entry (env : Env) (srv : Server)
    (data : raw_record) (w w' : World) (result : PipelineResult)
    (up : DriveResult) (db : string) :
  processGutachtenSubmission env srv data w = (Ok result, w') →
  googleDrive result = Succeeded up →
  notion srv = true →
  env_var (BUSINESS_RESOURCES_DATABASE_ID srv) = Some db →
  ∃ props, NotionCreatePage db props ∈ calls w'
           ∧ props !! "Link" = Some (PUrl (fileLink up)).
Proof.
  rewrite processGutachtenSubmission_run.
  destruct (prepare env data w) as [[[formData ts]|m] w1]; [|done].
  destruct (generatePDFFile env formData w1) as [[p|e] w2]; [|done].
  destruct (uploadStage env srv formData p w2) as [[[outcome link]|m] w3]
    eqn:Hup; [|done].
  destruct (notionStep env srv formData link w3) as [[noutcome|m] w4]
    eqn:Hno; [|done].
  intros [= <- <-]. simpl. intros -> Hnotion Hdb.
  apply uploadStage_inv in Hup as (_ & -> & Hup).
  unfold notionStep, try_catch, bind, ret in Hno. rewrite Hnotion in Hno.
  destruct (processNotionIntegration_returns env srv formData
              (Some (fileLink up)) w3)
    as (c & wc & r & wr & Hc & Hr & Hrun).
  rewrite Hrun in Hno. injection Hno as _ <-.
  pose proof (resourceStep_attempts env srv formData (Some (fileLink up)) c wc
                db Hdb) as Hin.
  rewrite Hr in Hin.
  destruct (resource_props_lookup formData (Some (fileLink up)) (entry_id c))
    as (Hlink & _).
  eexists. split; [done|].
  by rewrite Hlink, (upload_link _ _ _ _ _ _ _ Hup).
Qed.

Lemma link_reaches_order_entry_witness :
  ∃ props,
    NotionCreatePage "resources" props
    ∈ calls (processGutachtenSubmission Example.env Example.srv Example.body
               Example.world).2
    ∧ is_Some (props !! "Link").
Proof.
  set (run := processGutachtenSubmission Example.env Example.srv Example.body
                Example.world).
  set (result := ok_or (mkResult "" None "" (Skipped "") (Skipped "")) run.1).
  destruct (link_reaches_order_entry Example.env Example.srv Example.body
              Example.world run.2 result
              (match googleDrive result with
               | Succeeded up => up
               | _ => Example.no_upload
               end) "resources")
    as (props & Hin & Hlink); [by_evaluation | by_evaluation | reflexivity..|].
  exists props. split; [exact Hin|]. rewrite Hlink. eexists. reflexivity.
Defined.

Lemma uploadStage_disabled env srv formData p w :
  drive srv = false →
  ∃ outcome, uploadStage env srv formData p w = (Ok (outcome, None), w).
Proof. unfold uploadStage, ret. intros ->. simpl. eauto. Qed.

Lemma notionStep_disabled env srv formData link w :
  notion srv = false →
  ∃ outcome, notionStep env srv formData link w = (Ok outcome, w).
Proof. unfold notionStep, ret. intros ->. eauto. Qed.

Lemma app_same_nil {A} (l k : list A) : l = l ++ k → k = [].
Proof.
  intros H. symmetry. apply (app_inv_head l). by rewrite app_nil_r.
Qed.

(** The requests of one submission, stage by stage. *)
Lemma pipeline_calls env srv data w r w' :
  processGutachtenSubmission env srv data w = (r, w') →
  ∃ lw ld ln,
    calls w' = calls w ++ lw ++ ld ++ ln
    ∧ Forall is_write_call lw
    ∧ Forall drive_call ld
    ∧ Forall (fun c => is_notion_call c = true) ln
    ∧ (drive srv = false → ld = [] ∧ drive_files w' = drive_files w)
    ∧ (notion srv = false → ln = [] ∧ notion_pages w' = notion_pages w).
Proof.
  rewrite processGutachtenSubmission_run.
  pose proof (prepare_changes env data w) as H1.
  destruct (prepare env data w) as [r1 w1]. cbn [snd] in H1.
  pose proof (changes_nothing_calls _ _ _ _ _ H1) as Hc1.
  pose proof (changes_nothing_pages _ _ _ _ _ H1) as Hp1.
  pose proof (ch_drive _ _ _ _ _ _ H1 eq_refl) as Hd1. clear H1.
  destruct r1 as [[formData timestamp]|m].
  2: { intros [= <- <-]. exists [], [], []. rewrite !app_nil_r.
       by repeat split. }
  pose proof (generatePDFFile_changes env formData w1) as H2.
  destruct (generatePDFFile env formData w1) as [r2 w2]. cbn [snd] in H2.
  pose proof (changes_nothing_pages _ _ _ _ _ H2) as Hp2.
  pose proof (ch_drive _ _ _ _ _ _ H2 eq_refl) as Hd2.
  destruct H2 as [(lw & Hlw & Hw) _ _ _].
  destruct r2 as [p|e].
  2: { intros [= <- <-]. exists lw, [], []. rewrite !app_nil_r.
       repeat split; try done; congruence. }
  pose proof (uploadStage_changes env srv formData p w2) as H3.
  pose proof (uploadStage_disabled env srv formData p w2) as Hoff3.
  destruct (uploadStage_returns env srv formData p w2)
    as (outcome & link & w3 & Hup).
  rewrite Hup in H3, Hoff3 |- *. cbn [snd] in H3.
  pose proof (changes_nothing_pages _ _ _ _ _ H3) as Hp3.
  destruct H3 as [(ld & Hld & Hdr) _ _ _].
  pose proof (notionStep_changes env srv (fun _ => True) formData link
                (fun _ _ => I) (fun _ => I) w3) as H4.
  pose proof (notionStep_disabled env srv formData link w3) as Hoff4.
  destruct (notionStep_returns env srv formData link w3)
    as (noutcome & w4 & Hno).
  rewrite Hno in H4, Hoff4 |- *. cbn [snd] in H4.
  pose proof (ch_drive _ _ _ _ _ _ H4 eq_refl) as Hd4.
  destruct H4 as [(ln & Hln & Hnt) _ _ _].
  intros [= <- <-]. exists lw, ld, ln. split_and!; try done.
  - rewrite Hln, Hld, Hlw, Hc1. by rewrite <- !app_assoc.
  - eapply Forall_impl; [exact Hnt|]. by intros [].
  - intros Hoff. destruct (Hoff3 Hoff) as (o & [= _ _ ->]).
    split; [by eapply app_same_nil | congruence].
  - intros Hoff. destruct (Hoff4 Hoff) as (o & [= _ ->]).
    split; [by eapply app_same_nil | congruence].
Qed.

(** X15.  The requests of one submission come in the order of the stages:
    first the write of the document, then the requests to Google Drive, then
    the requests to Notion; none is made out of that order, whether the
    submission returns or throws. *)
Theorem requests_follow_the_stages (env : Env) (srv : Server)
    (data : raw_record) (w w' : World) (r : Result PipelineResult) :
  processGutachtenSubmission env srv data w = (r, w') →
  ∃ writes to_drive to_notion,
    calls w' = calls w ++ writes ++ to_drive ++ to_notion
    ∧ Forall is_write_call writes
    ∧ Forall drive_call to_drive
    ∧ Forall (fun c => is_notion_call c = true) to_notion.
Proof.
  intros (lw & ld & ln & ? & ? & ? & ? & _)%pipeline_calls. by exists lw, ld, ln.
Qed.

Lemma requests_follow_the_stages_witness :
  let run := processGutachtenSubmission Example.env Example.srv Example.body
               Example.world in
  ∃ writes to_drive to_notion,
    calls run.2 = calls Example.world ++ writes ++ to_drive ++ to_notion
    ∧ Forall is_write_call writes
    ∧ Forall drive_call to_drive
    ∧ Forall (fun c => is_notion_call c = true) to_notion.
Proof.
  cbv zeta.
  apply (requests_follow_the_stages Example.env Example.srv Example.body
           Example.world _
           (processGutachtenSubmission Example.env Example.srv Example.body
              Example.world).1).
  apply surjective_pairing.
Defined.

(** X16.  A collaborator that is not set up is never contacted: without the
    Drive client a submission makes no request to Google Drive and leaves
    its files as they are, and without the Notion client it makes no request
    to Notion and leaves its pages as they are. *)
Theorem disabled_collaborators_are_not_contacted (env : Env) (srv : Server)
    (data : raw_record) (w w' : World) (r : Result PipelineResult) :
  processGutachtenSubmission env srv data w = (r, w') →
  (drive srv = false →
   Forall (fun c => is_drive_call c = false) (drop (length (calls w)) (calls w'))
   ∧ drive_files w' = drive_files w)
  ∧ (notion srv = false →
     Forall (fun c => is_notion_call c = false)
            (drop (length (calls w)) (calls w'))
     ∧ notion_pages w' = notion_pages w).
Proof.
  intros (lw & ld & ln & -> & Hw & Hd & Hn & Hdoff & Hnoff)%pipeline_calls.
  rewrite drop_app_length.
  assert (Forall (fun c => is_drive_call c = false) lw) as Hwd.
  { eapply Forall_impl; [exact Hw|]. by intros c [p ->]. }
  assert (Forall (fun c => is_notion_call c = false) lw) as Hwn.
  { eapply Forall_impl; [exact Hw|]. by intros c [p ->]. }
  split; intros Hoff.
  - destruct (Hdoff Hoff) as [-> ->]. split; [|done].
    apply Forall_app. split; [done|]. simpl.
    eapply Forall_impl; [exact Hn|]. by intros [].
  - destruct (Hnoff Hoff) as [-> ->]. split; [|done].
    rewrite app_nil_r. apply Forall_app. split; [done|].
    eapply Forall_impl; [exact Hd|]. unfold drive_call. by intros [].
Qed.

Lemma disabled_collaborators_are_not_contacted_witness :
  let srv := mkServer false false (Some "root") (Some "kontakte")
               (Some "resources") in
  let run := processGutachtenSubmission Example.env srv Example.body
               Example.world in
  drive_files run.2 = drive_files Example.world
  ∧ notion_pages run.2 = notion_pages Example.world.
Proof.
  cbv zeta.
  destruct (disabled_collaborators_are_not_contacted Example.env
              (mkServer false false (Some "root") (Some "kontakte")
                 (Some "resources"))
              Example.body Example.world
              (processGutachtenSubmission Example.env
                 (mkServer false false (Some "root") (Some "kontakte")
                    (Some "resources")) Example.body Example.world).2
              (processGutachtenSubmission Example.env
                 (mkServer false false (Some "root") (Some "kontakte")
                    (Some "resources")) Example.body Example.world).1)
    as [Hd Hn]; [apply surjective_pairing|].
  split; [apply Hd | apply Hn]; reflexivity.
Defined.

(** ** The route *)

(** X17.  The answer of [POST /api/submit-gutachten].  A body that fails
    validation is answered with status 500, [success: false] and the message
    of the validation, and no request is made; a valid one is answered either
    with status 200, [success: true] and the result of the pipeline, or, when
    rendering fails, with status 500 and ["PDF-Generierung fehlgeschlagen"].
    The fallback message ["Ein Fehler ist aufgetreten"] is never sent. *)
Theorem submit_response (env : Env) (srv : Server) (body : raw_record)
    (w : World) :
  let answer := Route.submit env srv body w in
  let run := processGutachtenSubmission env srv body w in
  answer.2 = run.2
  ∧ Route.message answer.1 ≠ "Ein Fehler ist aufgetreten"
  ∧ match validateFormData (normalized_in env w body) with
    | Throw m =>
        answer.1 = Route.mkResponse 500%nat false m None
        ∧ calls answer.2 = calls w
    | Ok _ =>
        (∃ result, run.1 = Ok result
                   ∧ answer.1.(Route.status) = 200%nat
                   ∧ answer.1.(Route.success) = true
                   ∧ answer.1.(Route.data) = Some result)
        ∨ answer.1 =
            Route.mkResponse 500%nat false "PDF-Generierung fehlgeschlagen" None
    end.
Proof.
  cbv zeta. unfold Route.submit.
  pose proof (prepare_changes env body w) as Hch.
  destruct (processGutachtenSubmission env srv body w) as [[result|m] w']
    eqn:Hrun; cbn [fst snd].
  - split; [done|]. split; [done|].
    destruct (validateFormData (normalized_in env w body)) as [[]|m] eqn:Hv.
    + left. by exists result.
    + rewrite processGutachtenSubmission_run in Hrun.
      destruct (prepare env body w) as [r1 w1] eqn:Hprep.
      apply prepare_inv in Hprep as [(m' & -> & _)|(ts & -> & Hok)];
        [done | congruence].
  - pose proof Hrun as Hthrow.
    apply pipeline_throw_inv in Hthrow as [Hv|[Hv ->]]; rewrite Hv.
    + destruct (validateFormData_message _ _ Hv) as [Hm Hfallback].
      apply String.eqb_neq in Hm. unfold Route.error_message. rewrite Hm.
      split; [done|]. split; [done|]. split; [done|].
        rewrite processGutachtenSubmission_run in Hrun.
        destruct (prepare env body w) as [r1 w1] eqn:Hprep. cbn [snd] in Hch.
        apply changes_nothing_calls in Hch.
        apply prepare_inv in Hprep as [(m' & -> & _)|(ts & -> & Hok)];
          [|congruence].
        injection Hrun as _ <-. done.
    + split; [done|]. split; [done|]. by right.
Qed.
